(** * FAU201 device class: a shallow embedding of fau201device.h / fau201device.cpp

  The FAU201 is a USB voltage source built around an LTC2640 12-bit DAC that
  sits behind a CP2130 USB-to-SPI bridge.  [FAU201Device] owns one [CP2130]
  object and turns "set the output to v volts" into a framed SPI write.

  Layout of this file:
  - machine integers and the binary32/binary64 arithmetic used by
    [setVoltage];
  - the error accumulator, the bridge interface ([CP2130]) and the session
    monad in which the member functions run;
  - the member functions of [FAU201Device], transcribed one by one;
  - a simulated bridge, used to exercise the member functions;
  - the notions the statements are written in (revision string, DAC word,
    voltage interval, rounding);
  - the theorems: [hardwareRevision], the DAC word, [setup], [open] and
    [close], the floating-point facts behind the voltage code,
    [setVoltage], and the append-only accumulator;
  - further properties: the range check against the real interval, the
    millivolt steps, the wire protocol over sequences of calls, the
    revision string read back, accuracy and monotonicity of the voltage
    code. *)

From Stdlib Require Import ZArith List String Ascii Bool Lia Lqa.
From Stdlib Require Import QArith Qround Qpower Qabs.
From Stdlib Require Import DecimalString.
From Stdlib Require Import Floats.SpecFloat.
Import ListNotations.
Local Open Scope Z_scope.

(* ===================================================================== *)
(** ** Machine integers *)
(* ===================================================================== *)

Module MachInt.

(** [static_cast<uint8_t>(x)]: reduction modulo 2^8. *)
Definition to_uint8 (x : Z) : Z := x mod 256.

(** [static_cast<uint16_t>(x)] on an integer: reduction modulo 2^16. *)
Definition to_uint16 (x : Z) : Z := x mod 65536.

Definition INT_MIN : Z := - 2 ^ 31.
Definition INT_MAX : Z := 2 ^ 31 - 1.

(** Two's complement wrap-around of a 32-bit [int]. *)
Definition wrap_int (x : Z) : Z := (x + 2 ^ 31) mod 2 ^ 32 - 2 ^ 31.

(** [++i] on an [int].  The C++ standard leaves the step past [INT_MAX]
    undefined; the model follows the two's complement machine and wraps, and
    the theorems that speak about the value of a counter assume it lies
    below [INT_MAX]. *)
Definition int_incr (i : Z) : Z := wrap_int (i + 1).

End MachInt.

(* ===================================================================== *)
(** ** Floating point: binary32 ([float]) and binary64 ([double]) *)
(* ===================================================================== *)

(** A [float] is an IEEE 754 binary32 datum, a [double] a binary64 one; both
  are values of [spec_float], with the operations of the reference
  specification [SpecFloat] at precision 24 (exponent bound 128) and
  precision 53 (exponent bound 1024), rounding to nearest, ties to even. *)
Module FP.

Definition float := spec_float.
Definition double := spec_float.

(** The data that are [float]s: canonical mantissa, exponent in range. *)
Definition f32_valid (x : float) : bool := valid_binary 24 128 x.

(** Integer constants in floating-point context ([1000] next to a [float],
    the [0] that initialises [VOLTAGE_MIN]). *)
Definition f32_of_int (z : Z) : float := binary_normalize 24 128 z 0 false.
Definition f64_of_int (z : Z) : double := binary_normalize 53 1024 z 0 false.

(** The decimal literal [n / d] read as a [double]: the binary64 value
    nearest to the quotient (both [n] and [d] are small integers here, so
    the correctly rounded division gives exactly that). *)
Definition f64_literal (n d : Z) : double :=
  SFdiv 53 1024 (f64_of_int n) (f64_of_int d).

(** Conversion [double -> float] (rounds) and promotion [float -> double]
    (exact: only the representation of the mantissa changes). *)
Definition f64_to_f32 (x : double) : float :=
  match x with
  | S754_finite s m e => binary_round 24 128 s m e
  | _ => x
  end.

Definition f32_to_f64 (x : float) : double :=
  match x with
  | S754_finite s m e => binary_round 53 1024 s m e
  | _ => x
  end.

Definition f32_mul : float -> float -> float := SFmul 24 128.
Definition f64_add : double -> double -> double := SFadd 53 1024.

(** [a < b] and [a > b]; both are false as soon as an operand is a NaN. *)
Definition f_lt (a b : spec_float) : bool := SFltb a b.
Definition f_gt (a b : spec_float) : bool := SFltb b a.

(** Truncation toward zero of a finite datum; [None] for infinities and
    NaN.  [Z.shiftl] by a negative amount is a right shift. *)
Definition trunc (x : spec_float) : option Z :=
  match x with
  | S754_zero _ => Some 0
  | S754_finite s m e => Some (cond_Zopp s (Z.shiftl (Zpos m) e))
  | S754_infinity _ | S754_nan => None
  end.

(** [static_cast<uint16_t>(x)] on a floating-point [x]: the truncated value
    when it fits in 16 bits.  Otherwise C++ leaves the result undefined;
    [undef x] stands for whatever the target produces, reduced to 16
    bits. *)
Definition to_uint16 (undef : spec_float -> Z) (x : spec_float) : Z :=
  match trunc x with
  | Some t =>
      if (0 <=? t) && (t <=? 65535) then t else MachInt.to_uint16 (undef x)
  | None => MachInt.to_uint16 (undef x)
  end.

Definition is_nan (x : spec_float) : bool :=
  match x with S754_nan => true | _ => false end.

Definition is_finite (x : spec_float) : bool :=
  match x with S754_zero _ | S754_finite _ _ _ => true | _ => false end.

(** The rational number a datum denotes (0 for infinities and NaN). *)
Definition value (x : spec_float) : Q :=
  match x with
  | S754_finite s m e => (inject_Z (cond_Zopp s (Zpos m)) * 2 ^ e)%Q
  | _ => 0%Q
  end.

(** Rounding of a rational to the nearest integer, halves upward. *)
Definition round_half_up (q : Q) : Z := Qfloor (q + (1 # 2))%Q.

End FP.

(* ===================================================================== *)
(** ** The error accumulator *)
(* ===================================================================== *)

(** Every member function that can fail takes [int &errcnt] and
  [std::string &errstr]; the pair is modelled as one record that the
  functions thread through. *)
Record ErrAcc : Type := mkErrAcc { errcnt : Z; errstr : string }.

(** An accumulator [b] extends [a]: the count did not go down and the text of
  [a] is still there, at the front. *)
Definition acc_extends (a b : ErrAcc) : Prop :=
  errcnt a <= errcnt b /\ exists suffix, errstr b = (errstr a ++ suffix)%string.

(* ===================================================================== *)
(** ** The bridge: class CP2130 *)
(* ===================================================================== *)

Module CP2130.

(** Modelled from the spec: [CP2130::SPIMode] is declared in cp2130.h, which
    is not among the sources.  The four fields are the ones [setup()]
    assigns: chip-select mode, clock frequency, clock polarity, clock
    phase. *)
Record SPIMode : Type := mkSPIMode { csmode : Z; cfrq : Z; cpol : Z; cpha : Z }.

(** Modelled from the spec: [CP2130::USBConfig], of which this class reads
    the major and minor release numbers. *)
Record USBConfig : Type := mkUSBConfig { majrel : Z; minrel : Z }.

(** Calls that reach the bridge (and [usleep]), in the order they are
    issued. *)
Inductive Event : Type :=
  | EvOpen (vid pid : Z) (serial : string)
  | EvClose
  | EvReset
  | EvConfigureSPIMode (channel : Z) (mode : SPIMode)
  | EvDisableSPIDelays (channel : Z)
  | EvSelectCS (channel : Z)
  | EvDisableCS (channel : Z)
  | EvSpiWrite (data : list Z) (endpoint : Z)
  | EvUsleep (microseconds : Z)
  | EvGetSiliconVersion
  | EvGetManufacturerDesc
  | EvGetProductDesc
  | EvGetSerialDesc
  | EvGetUSBConfig
  | EvListDevices (vid pid : Z).

(** The interface [FAU201Device] relies on.  [B] is the state of a [CP2130]
    object together with the USB bus behind it.  The constants are the
    static members of the class that fau201device.h and fau201device.cpp
    name; their values live in cp2130.h and stay parameters. *)
Class Bridge (B : Type) : Type := {
    SUCCESS : Z;
    ERROR_INIT : Z;
    ERROR_NOT_FOUND : Z;
    ERROR_BUSY : Z;
    CSMODEPP : Z;
    CFRQ750K : Z;
    CPOL0 : Z;
    CPHA0 : Z;
    SiliconVersion : Type;
    disconnected : B -> bool;
    isOpen : B -> bool;
    close : B -> B;
    open : Z -> Z -> string -> B -> Z * B;
    reset : B -> ErrAcc -> B * ErrAcc;
    configureSPIMode : Z -> SPIMode -> B -> ErrAcc -> B * ErrAcc;
    disableSPIDelays : Z -> B -> ErrAcc -> B * ErrAcc;
    selectCS : Z -> B -> ErrAcc -> B * ErrAcc;
    disableCS : Z -> B -> ErrAcc -> B * ErrAcc;
    spiWrite : list Z -> Z -> B -> ErrAcc -> B * ErrAcc;
    getSiliconVersion : B -> ErrAcc -> SiliconVersion * (B * ErrAcc);
    getManufacturerDesc : B -> ErrAcc -> list Z * (B * ErrAcc);
    getProductDesc : B -> ErrAcc -> list Z * (B * ErrAcc);
    getSerialDesc : B -> ErrAcc -> list Z * (B * ErrAcc);
    getUSBConfig : B -> ErrAcc -> USBConfig * (B * ErrAcc);
    listDevices : Z -> Z -> B -> ErrAcc -> list string * ErrAcc
  }.

(** The discipline the bridge's fail-soft calls are expected to keep: a
    call only ever adds to the accumulator it is handed. *)
Record Disciplined {B : Type} `{Bridge B} : Prop := {
    reset_extends : forall b a, acc_extends a (snd (reset b a));
    configureSPIMode_extends :
      forall ch m b a, acc_extends a (snd (configureSPIMode ch m b a));
    disableSPIDelays_extends :
      forall ch b a, acc_extends a (snd (disableSPIDelays ch b a));
    selectCS_extends : forall ch b a, acc_extends a (snd (selectCS ch b a));
    disableCS_extends : forall ch b a, acc_extends a (snd (disableCS ch b a));
    spiWrite_extends :
      forall d ep b a, acc_extends a (snd (spiWrite d ep b a));
    getSiliconVersion_extends :
      forall b a, acc_extends a (snd (snd (getSiliconVersion b a)));
    getManufacturerDesc_extends :
      forall b a, acc_extends a (snd (snd (getManufacturerDesc b a)));
    getProductDesc_extends :
      forall b a, acc_extends a (snd (snd (getProductDesc b a)));
    getSerialDesc_extends :
      forall b a, acc_extends a (snd (snd (getSerialDesc b a)));
    getUSBConfig_extends :
      forall b a, acc_extends a (snd (snd (getUSBConfig b a)));
    listDevices_extends :
      forall v p b a, acc_extends a (snd (listDevices v p b a))
  }.

End CP2130.

(* ===================================================================== *)
(** ** Sessions: the state a member function runs in *)
(* ===================================================================== *)

Section SessionMonad.

Context {B : Type} `{CP2130.Bridge B}.

(** The member [cp2130_], the caller's accumulator, and the calls issued so
    far (a ghost log: the code does not keep it). *)
Record Session : Type := mkSession {
    dev : B;
    err : ErrAcc;
    log : list CP2130.Event
  }.

Definition M (A : Type) : Type := Session -> A * Session.

Definition ret {A : Type} (a : A) : M A := fun s => (a, s).

Definition bind {A C : Type} (c : M A) (k : A -> M C) : M C :=
  fun s => let (a, s') := c s in k a s'.

Definition exec {A : Type} (c : M A) (s : Session) : Session := snd (c s).

(** A bridge call that takes the accumulator and returns nothing. *)
Definition call (ev : CP2130.Event) (f : B -> ErrAcc -> B * ErrAcc) : M unit :=
  fun s =>
    let (b, a) := f (dev s) (err s) in
    (tt, {| dev := b; err := a; log := log s ++ [ev] |}).

(** A bridge call that takes the accumulator and returns a value. *)
Definition query {A : Type} (ev : CP2130.Event)
    (f : B -> ErrAcc -> A * (B * ErrAcc)) : M A :=
  fun s =>
    let '(x, (b, a)) := f (dev s) (err s) in
    (x, {| dev := b; err := a; log := log s ++ [ev] |}).

(** [usleep(us)]: time is not modelled, only the fact that the wait
    happened. *)
Definition usleep (us : Z) : M unit :=
  fun s => (tt, {| dev := dev s; err := err s;
                   log := log s ++ [CP2130.EvUsleep us] |}).

(** [++errcnt] and [errstr += text]. *)
Definition incr_errcnt : M unit :=
  fun s => (tt, {| dev := dev s;
                   err := {| errcnt := MachInt.int_incr (errcnt (err s));
                             errstr := errstr (err s) |};
                   log := log s |}).

Definition append_errstr (text : string) : M unit :=
  fun s => (tt, {| dev := dev s;
                   err := {| errcnt := errcnt (err s);
                             errstr := (errstr (err s) ++ text)%string |};
                   log := log s |}).

End SessionMonad.

Arguments Session B : clear implicits.
Arguments M B A : clear implicits.

Declare Scope session_scope.
Delimit Scope session_scope with session.
Notation "x <- c ;; k" := (bind c (fun x => k))
  (at level 61, c at next level, right associativity) : session_scope.
Notation "c ;; k" := (bind c (fun _ => k))
  (at level 61, right associativity) : session_scope.

(** The calls on the member [cp2130_] (and the static [CP2130::listDevices]),
  each recorded in the log under its own name. *)
Module cp2130_.

Section Calls.

Context {B : Type} `{CP2130.Bridge B}.

Import CP2130.

Definition disconnected : M B bool :=
  fun s => (CP2130.disconnected (dev s), s).

Definition isOpen : M B bool :=
  fun s => (CP2130.isOpen (dev s), s).

Definition close : M B unit :=
  fun s => (tt, {| dev := CP2130.close (dev s); err := err s;
                   log := log s ++ [EvClose] |}).

Definition open (vid pid : Z) (serial : string) : M B Z :=
  fun s =>
    let (status, b) := CP2130.open vid pid serial (dev s) in
    (status, {| dev := b; err := err s;
                log := log s ++ [EvOpen vid pid serial] |}).

Definition reset : M B unit := call EvReset CP2130.reset.

Definition configureSPIMode (channel : Z) (mode : SPIMode) : M B unit :=
  call (EvConfigureSPIMode channel mode) (CP2130.configureSPIMode channel mode).

Definition disableSPIDelays (channel : Z) : M B unit :=
  call (EvDisableSPIDelays channel) (CP2130.disableSPIDelays channel).

Definition selectCS (channel : Z) : M B unit :=
  call (EvSelectCS channel) (CP2130.selectCS channel).

Definition disableCS (channel : Z) : M B unit :=
  call (EvDisableCS channel) (CP2130.disableCS channel).

Definition spiWrite (data : list Z) (endpointAddr : Z) : M B unit :=
  call (EvSpiWrite data endpointAddr) (CP2130.spiWrite data endpointAddr).

Definition getSiliconVersion : M B SiliconVersion :=
  query EvGetSiliconVersion CP2130.getSiliconVersion.

Definition getManufacturerDesc : M B (list Z) :=
  query EvGetManufacturerDesc CP2130.getManufacturerDesc.

Definition getProductDesc : M B (list Z) :=
  query EvGetProductDesc CP2130.getProductDesc.

Definition getSerialDesc : M B (list Z) :=
  query EvGetSerialDesc CP2130.getSerialDesc.

Definition getUSBConfig : M B USBConfig :=
  query EvGetUSBConfig CP2130.getUSBConfig.

Definition listDevices (vid pid : Z) : M B (list string) :=
  fun s =>
    let (l, a) := CP2130.listDevices vid pid (dev s) (err s) in
    (l, {| dev := dev s; err := a; log := log s ++ [EvListDevices vid pid] |}).

End Calls.

End cp2130_.

(* ===================================================================== *)
(** ** class FAU201Device *)
(* ===================================================================== *)

Module FAU201Device.

Import CP2130.

(** fau201device.h *)
Definition VID : Z := 0x10C4.
Definition PID : Z := 0x8C46.

(** [static constexpr float VOLTAGE_MIN = 0;] *)
Definition VOLTAGE_MIN : FP.float := Eval vm_compute in FP.f32_of_int 0.

(** [static constexpr float VOLTAGE_MAX = 4.095;]: the [double] literal
    4.095, converted to [float]. *)
Definition VOLTAGE_MAX : FP.float :=
  Eval vm_compute in FP.f64_to_f32 (FP.f64_literal 4095 1000).

(** fau201device.cpp: [const uint8_t EPOUT = 0x01;] *)
Definition EPOUT : Z := 0x01.

(** The [1000] of [voltage * 1000], converted to [float] by the usual
    arithmetic conversions, and the [double] literal [0.5]. *)
Definition f32_1000 : FP.float := Eval vm_compute in FP.f32_of_int 1000.
Definition f64_half : FP.double := Eval vm_compute in FP.f64_literal 1 2.

(** [voltage * 1000 + 0.5]: the product is a [float] product, the sum a
    [double] sum. *)
Definition scaled (voltage : FP.float) : FP.double :=
  FP.f64_add (FP.f32_to_f64 (FP.f32_mul voltage f32_1000)) f64_half.

(** The guard of [setVoltage]:
    [voltage < VOLTAGE_MIN || voltage > VOLTAGE_MAX]. *)
Definition out_of_range (voltage : FP.float) : bool :=
  FP.f_lt voltage VOLTAGE_MIN || FP.f_gt voltage VOLTAGE_MAX.

(** The initialiser list of [set] in [setVoltage]. *)
Definition set_command (voltageCode : Z) : list Z :=
  [ 0x30;
    MachInt.to_uint8 (Z.shiftr voltageCode 4);
    MachInt.to_uint8 (Z.shiftl voltageCode 4) ].

(** [stream << static_cast<int>(n); stream.str()] *)
Definition int_to_string (n : Z) : string :=
  NilZero.string_of_int (Z.to_int n).

(** [static_cast<char>(n)] *)
Definition to_char (n : Z) : ascii :=
  ascii_of_N (Z.to_N (MachInt.to_uint8 n)).

(** [std::string FAU201Device::hardwareRevision(const CP2130::USBConfig &config)] *)
Definition hardwareRevision (config : USBConfig) : string :=
  let revision := EmptyString in
  let revision :=
    if (majrel config >? 1) && (majrel config <=? 27) then
      (revision ++
         String (to_char (majrel config + Z.of_N (N_of_ascii "A") - 2))
                EmptyString)%string
    else revision in
  let revision :=
    if (majrel config =? 1) || negb (minrel config =? 0) then
      (revision ++ int_to_string (minrel config))%string
    else revision in
  revision.

Section Members.

Context {B : Type} `{Bridge B}.

(** What the target yields for a [float]-to-[uint16_t] conversion that
    C++ leaves undefined. *)
Variable cast_undef : spec_float -> Z.

Local Open Scope session_scope.

(** [bool FAU201Device::disconnected() const] *)
Definition disconnected : M B bool := cp2130_.disconnected.

(** [bool FAU201Device::isOpen() const] *)
Definition isOpen : M B bool := cp2130_.isOpen.

(** [void FAU201Device::close()] *)
Definition close : M B unit := cp2130_.close.

(** [CP2130::SiliconVersion FAU201Device::getCP2130SiliconVersion(...)] *)
Definition getCP2130SiliconVersion : M B SiliconVersion :=
  cp2130_.getSiliconVersion.

(** [CP2130::USBConfig FAU201Device::getUSBConfig(...)] *)
Definition getUSBConfig : M B USBConfig := cp2130_.getUSBConfig.

(** [std::string FAU201Device::getHardwareRevision(...)] *)
Definition getHardwareRevision : M B string :=
  config <- getUSBConfig ;;
  ret (hardwareRevision config).

(** [std::u16string FAU201Device::getManufacturerDesc(...)] *)
Definition getManufacturerDesc : M B (list Z) := cp2130_.getManufacturerDesc.

(** [std::u16string FAU201Device::getProductDesc(...)] *)
Definition getProductDesc : M B (list Z) := cp2130_.getProductDesc.

(** [std::u16string FAU201Device::getSerialDesc(...)] *)
Definition getSerialDesc : M B (list Z) := cp2130_.getSerialDesc.

(** [int FAU201Device::open(const std::string &serial)] *)
Definition open (serial : string) : M B Z := cp2130_.open VID PID serial.

(** [void FAU201Device::reset(...)] *)
Definition reset : M B unit := cp2130_.reset.

(** [void FAU201Device::setup(int &errcnt, std::string &errstr)] *)
Definition setup : M B unit :=
  let mode := {| csmode := CSMODEPP; cfrq := CFRQ750K;
                 cpol := CPOL0; cpha := CPHA0 |} in
  cp2130_.configureSPIMode 0 mode ;;
  cp2130_.disableSPIDelays 0 ;;
  cp2130_.selectCS 0 ;;
  let config := [0x70; 0x00; 0x00] in
  cp2130_.spiWrite config EPOUT ;;
  usleep 100 ;;
  cp2130_.disableCS 0.

(** [uint16_t voltageCode = static_cast<uint16_t>(voltage * 1000 + 0.5);] *)
Definition voltageCode (voltage : FP.float) : Z :=
  FP.to_uint16 cast_undef (scaled voltage).

(** [void FAU201Device::setVoltage(float voltage, int &errcnt, std::string &errstr)] *)
Definition setVoltage (voltage : FP.float) : M B unit :=
  if out_of_range voltage then
    incr_errcnt ;;
    append_errstr
      ("In setVoltage(): Voltage must be between 0 and 4.095."
         ++ String "010" EmptyString)
  else
    cp2130_.selectCS 0 ;;
    let set := set_command (voltageCode voltage) in
    cp2130_.spiWrite set EPOUT ;;
    usleep 100 ;;
    cp2130_.disableCS 0.

(** [std::list<std::string> FAU201Device::listDevices(...)] (static) *)
Definition listDevices : M B (list string) := cp2130_.listDevices VID PID.

End Members.

End FAU201Device.

(* ===================================================================== *)
(** ** A simulated bridge *)
(* ===================================================================== *)

(** Modelled from the spec: class [CP2130] (cp2130.h, cp2130.cpp) is not among
  the sources.  The simulation follows what the specification says of the
  Bridge Abstraction: [open] looks for the unit matching the identity and,
  if given, the exact serial (the first match when the serial is omitted)
  and answers with one of four status codes, leaving the handle untouched
  on failure; [isOpen] tells whether a handle is held; [close] releases the
  handle if held and does nothing otherwise; every other call is fail-soft
  and reports into the accumulator when no usable handle is held.  The
  numeric values of the constants and the wording of the messages are the
  simulation's own. *)
Module SimBridge.

Import CP2130.

(** A unit attached to the bus. *)
Record Unit : Type := mkUnit {
    u_vid : Z;
    u_pid : Z;
    u_serial : string;
    u_in_use : bool;
    u_config : USBConfig
  }.

Record State : Type := mkState {
    transport_ok : bool;       (* the transport layer can be started *)
    bus : list Unit;           (* the units currently attached *)
    handle : option string;    (* serial of the unit held, if any *)
    gone : bool                (* the unit held was unplugged *)
  }.

Definition matches (vid pid : Z) (serial : string) (u : Unit) : bool :=
  (u_vid u =? vid) && (u_pid u =? pid) &&
  (String.eqb serial EmptyString || String.eqb serial (u_serial u)).

Definition set_in_use (serial : string) (v : bool) (u : Unit) : Unit :=
  if String.eqb (u_serial u) serial
  then {| u_vid := u_vid u; u_pid := u_pid u; u_serial := u_serial u;
          u_in_use := v; u_config := u_config u |}
  else u.

(** Modelled from the spec: [CP2130::isOpen], true iff a handle is currently
  held. *)
Definition sim_isOpen (st : State) : bool :=
  match handle st with Some _ => true | None => false end.

(** Modelled from the spec: [CP2130::disconnected], true iff a handle is held
  and the unit behind it is no longer reachable. *)
Definition sim_disconnected (st : State) : bool :=
  sim_isOpen st && gone st.

(** Modelled from the spec: [CP2130::open].  Initialization failure (1) when
  the transport layer cannot start, not-found (2) when no attached unit
  matches, already-in-use (3) when the matching unit is taken, success (0)
  otherwise; only success changes the state. *)
Definition sim_open (vid pid : Z) (serial : string) (st : State) : Z * State :=
  if negb (transport_ok st) then (1, st)
  else
    match find (matches vid pid serial) (bus st) with
    | None => (2, st)
    | Some u =>
        if u_in_use u then (3, st)
        else (0, {| transport_ok := transport_ok st;
                    bus := map (set_in_use (u_serial u) true) (bus st);
                    handle := Some (u_serial u);
                    gone := false |})
    end.

(** Modelled from the spec: [CP2130::close], which releases the handle if
  held and does nothing if not. *)
Definition sim_close (st : State) : State :=
  match handle st with
  | Some serial =>
      {| transport_ok := transport_ok st;
         bus := map (set_in_use serial false) (bus st);
         handle := None;
         gone := false |}
  | None => st
  end.

Definition usable (st : State) : bool := sim_isOpen st && negb (gone st).

Definition report (name : string) (a : ErrAcc) : ErrAcc :=
  {| errcnt := errcnt a + 1;
     errstr := (errstr a ++ "In " ++ name ++ "(): no usable device."
                  ++ String "010" EmptyString)%string |}.

(** A fail-soft call without result. *)
Definition soft (name : string) (st : State) (a : ErrAcc) : State * ErrAcc :=
  if usable st then (st, a) else (st, report name a).

(** A fail-soft call with a result; [dflt] is returned on failure. *)
Definition soft_get {A : Type} (name : string) (get : State -> option A)
    (dflt : A) (st : State) (a : ErrAcc) : A * (State * ErrAcc) :=
  if usable st then
    match get st with
    | Some x => (x, (st, a))
    | None => (dflt, (st, report name a))
    end
  else (dflt, (st, report name a)).

Definition held_unit (st : State) : option Unit :=
  match handle st with
  | Some serial => find (fun u => String.eqb (u_serial u) serial) (bus st)
  | None => None
  end.

Definition chars (s : string) : list Z :=
  map (fun c => Z.of_N (N_of_ascii c)) (list_ascii_of_string s).

Definition sim_listDevices (vid pid : Z) (st : State) (a : ErrAcc)
    : list string * ErrAcc :=
  if transport_ok st
  then (map u_serial (filter (matches vid pid EmptyString) (bus st)), a)
  else (nil, report "listDevices" a).

#[global] Instance bridge : Bridge State := {|
    SUCCESS := 0;
    ERROR_INIT := 1;
    ERROR_NOT_FOUND := 2;
    ERROR_BUSY := 3;
    CSMODEPP := 1;
    CFRQ750K := 4;
    CPOL0 := 0;
    CPHA0 := 0;
    SiliconVersion := (Z * Z)%type;
    disconnected := sim_disconnected;
    isOpen := sim_isOpen;
    close := sim_close;
    open := sim_open;
    reset := soft "reset";
    configureSPIMode := fun _ _ => soft "configureSPIMode";
    disableSPIDelays := fun _ => soft "disableSPIDelays";
    selectCS := fun _ => soft "selectCS";
    disableCS := fun _ => soft "disableCS";
    spiWrite := fun _ _ => soft "spiWrite";
    getSiliconVersion :=
      soft_get "getSiliconVersion" (fun _ => Some (1, 2)) (0, 0);
    getManufacturerDesc :=
      soft_get "getManufacturerDesc" (fun _ => Some (chars "Bloguetronica"))
               nil;
    getProductDesc :=
      soft_get "getProductDesc" (fun _ => Some (chars "FAU201")) nil;
    getSerialDesc :=
      soft_get "getSerialDesc"
               (fun st => option_map (fun u => chars (u_serial u)) (held_unit st))
               nil;
    getUSBConfig :=
      soft_get "getUSBConfig" (fun st => option_map u_config (held_unit st))
               {| majrel := 0; minrel := 0 |};
    listDevices := sim_listDevices
  |}.

(** A bus with one free FAU201 (hardware revision A5) and one that another
    process holds. *)
Definition unit1 : Unit :=
  {| u_vid := 0x10C4; u_pid := 0x8C46; u_serial := "0001";
     u_in_use := false; u_config := {| majrel := 2; minrel := 5 |} |}.
Definition unit2 : Unit :=
  {| u_vid := 0x10C4; u_pid := 0x8C46; u_serial := "0002";
     u_in_use := true; u_config := {| majrel := 1; minrel := 3 |} |}.

Definition fresh (units : list Unit) : State :=
  {| transport_ok := true; bus := units; handle := None; gone := false |}.

Definition start (units : list Unit) : Session State :=
  {| dev := fresh units; err := {| errcnt := 0; errstr := EmptyString |};
     log := nil |}.

End SimBridge.

(* ===================================================================== *)
(** ** Specification-level definitions *)
(* ===================================================================== *)

(** What the specification says of the hardware revision string, in its own
  words: a letter part, then a digit part. *)
Module RevisionSpec.

(** The letter ['A' + (majrel - 2)] exactly when [1 < majrel <= 27]. *)
Definition letter_part (majrel : Z) : string :=
  if (1 <? majrel) && (majrel <=? 27)
  then String (ascii_of_nat (nat_of_ascii "A" + Z.to_nat (majrel - 2)))
              EmptyString
  else EmptyString.

(** The decimal form of [minrel] exactly when [majrel = 1] or
    [minrel <> 0]. *)
Definition digit_part (majrel minrel : Z) : string :=
  if (majrel =? 1) || negb (minrel =? 0)
  then NilZero.string_of_int (Z.to_int minrel)
  else EmptyString.

End RevisionSpec.

(** The DAC word as the specification packs and re-assembles it. *)
Module DacWord.

Definition pack (code : Z) : Z * Z :=
  (Z.shiftr code 4, Z.land (Z.shiftl code 4) 0xF0).

Definition unpack (bytes : Z * Z) : Z :=
  Z.lor (Z.shiftl (fst bytes) 4) (Z.shiftr (snd bytes) 4).

(** The two data bytes [setVoltage] puts on the wire. *)
Definition wire_bytes (code : Z) : Z * Z :=
  (nth 1 (FAU201Device.set_command code) 0,
   nth 2 (FAU201Device.set_command code) 0).

Definition roundtrip_ok (code : Z) : bool :=
  (fst (wire_bytes code) =? fst (pack code)) &&
  (snd (wire_bytes code) =? snd (pack code)) &&
  (unpack (pack code) =? code).

End DacWord.

(** Membership of a [float] in the closed interval [0, 4.095], by the number
  it denotes.  Infinities and NaN are not members. *)
Module VoltageSpec.

Definition in_interval (v : FP.float) : Prop :=
  FP.is_finite v = true /\
  (0 <= FP.value v)%Q /\ (FP.value v <= 4095 # 1000)%Q.

(** The text [setVoltage] records for a voltage it rejects. *)
Definition message : string :=
  ("In setVoltage(): Voltage must be between 0 and 4.095."
     ++ String "010" EmptyString)%string.

End VoltageSpec.

(** The member functions that take the accumulator, as one enumeration.
  ([attach] is declared in fau201device.h but defined nowhere in the
  sources.) *)
Inductive AccOp : Type :=
  | OpGetCP2130SiliconVersion
  | OpGetHardwareRevision
  | OpGetManufacturerDesc
  | OpGetProductDesc
  | OpGetSerialDesc
  | OpGetUSBConfig
  | OpReset
  | OpSetup
  | OpSetVoltage (voltage : FP.float)
  | OpListDevices.

Section RunOp.

Context {B : Type} `{CP2130.Bridge B}.
Variable cast_undef : spec_float -> Z.

(** The session a member function leaves behind, its result dropped. *)
Definition run_op (op : AccOp) (s : Session B) : Session B :=
  match op with
  | OpGetCP2130SiliconVersion => exec FAU201Device.getCP2130SiliconVersion s
  | OpGetHardwareRevision => exec FAU201Device.getHardwareRevision s
  | OpGetManufacturerDesc => exec FAU201Device.getManufacturerDesc s
  | OpGetProductDesc => exec FAU201Device.getProductDesc s
  | OpGetSerialDesc => exec FAU201Device.getSerialDesc s
  | OpGetUSBConfig => exec FAU201Device.getUSBConfig s
  | OpReset => exec FAU201Device.reset s
  | OpSetup => exec FAU201Device.setup s
  | OpSetVoltage v => exec (FAU201Device.setVoltage cast_undef v) s
  | OpListDevices => exec FAU201Device.listDevices s
  end.

(** The bridge calls of a framed write, applied one after the other to the
    device and the accumulator. *)
Definition thread (steps : list (B -> ErrAcc -> B * ErrAcc))
    (start : B * ErrAcc) : B * ErrAcc :=
  fold_left (fun st f => f (fst st) (snd st)) steps start.

End RunOp.

(* ===================================================================== *)
(** ** Rounding, in integers *)
(* ===================================================================== *)

(** The notions in which the rounding steps of [SpecFloat] are described. *)
Module Rounding.

(** The record [r] is what [k] right shifts make of the nonnegative integer
    [x]: the quotient, the bit shifted out last, and whether anything was
    shifted out before it. *)
Definition shr_inv (x k : Z) (r : shr_record) : Prop :=
  0 <= shr_m r /\
  exists rho tau,
    x = shr_m r * 2 ^ k + rho /\ 0 <= rho < 2 ^ k /\
    2 * rho = (if shr_r r then 2 ^ k else 0) + tau /\ 0 <= tau < 2 ^ k /\
    (shr_s r = true <-> 0 < tau).

(** [q] is an integer nearest to [x / 2^k]. *)
Definition rounds_to (x k q : Z) : Prop :=
  0 <= q /\ 2 * x - 2 ^ k <= 2 * 2 ^ k * q <= 2 * x + 2 ^ k.

(** The datum [binary_round_aux] returns for the rounded mantissa [q] at
    exponent [e]: a mantissa that reached [2^prec] is renormalised. *)
Definition finish (prec emax : Z) (s : bool) (q e : Z) : spec_float :=
  if q =? 0 then S754_zero s
  else if q <? 2 ^ prec then
    if e <=? emax - prec then S754_finite s (Z.to_pos q) e
    else S754_infinity s
  else
    if e + 1 <=? emax - prec
    then S754_finite s (Z.to_pos (2 ^ (prec - 1))) (e + 1)
    else S754_infinity s.

(** [m * 2^e + 1/2], rounded down, for [e <= 0]. *)
Definition rhu_dyadic (m e : Z) : Z := (2 * m + 2 ^ (- e)) / 2 ^ (1 - e).

End Rounding.

(* ===================================================================== *)
(** ** Further notions: call sequences, the wire protocol, millivolt steps *)
(* ===================================================================== *)

(** All the public member functions of the class, with their arguments. *)
Inductive Member : Type :=
| MDisconnected
| MIsOpen
| MClose
| MOpen (serial : string)
| MAcc (op : AccOp).

Section RunMembers.

Context {B : Type} `{CP2130.Bridge B}.
Variable cast_undef : spec_float -> Z.

(** The session one call leaves behind, and the session a sequence of calls
  leaves behind. *)
Definition run_member (m : Member) (s : Session B) : Session B :=
  match m with
  | MDisconnected => exec FAU201Device.disconnected s
  | MIsOpen => exec FAU201Device.isOpen s
  | MClose => exec FAU201Device.close s
  | MOpen serial => exec (FAU201Device.open serial) s
  | MAcc op => run_op cast_undef op s
  end.

Definition run_members (ms : list Member) (s : Session B) : Session B :=
  fold_left (fun st m => run_member m st) ms s.

End RunMembers.

(** The discipline on the wire, as an automaton over the log: chip select 0
  is asserted, one three-byte write goes to endpoint 0x01, 100 microseconds
  pass, chip select 0 is released; everything else happens while the chip
  select is released. *)
Module Protocol.

Import CP2130.

Inductive Phase : Type := Idle | Selected | Written | Settled.

Definition step (p : Phase) (ev : Event) : option Phase :=
  match p, ev with
  | Idle, EvSelectCS ch => if ch =? 0 then Some Selected else None
  | Idle, (EvSpiWrite _ _ | EvDisableCS _ | EvUsleep _) => None
  | Idle, _ => Some Idle
  | Selected, EvSpiWrite data ep =>
      if (Z.of_nat (List.length data) =? 3) && (ep =? 0x01)
      then Some Written else None
  | Selected, _ => None
  | Written, EvUsleep us => if us =? 100 then Some Settled else None
  | Written, _ => None
  | Settled, EvDisableCS ch => if ch =? 0 then Some Idle else None
  | Settled, _ => None
  end.

Fixpoint accepts (p : Phase) (l : list Event) : option Phase :=
  match l with
  | [] => Some p
  | ev :: l' =>
      match step p ev with
      | Some p' => accepts p' l'
      | None => None
      end
  end.

End Protocol.

(** Reading a revision string back: an upper-case letter stands for the
  major release it encodes, no letter for major release 1; the digits are
  the minor release, 0 when there are none. *)
Module RevisionDecode.

Definition is_upper (c : ascii) : bool :=
  ((65 <=? N_of_ascii c) && (N_of_ascii c <=? 90))%N.

Definition digits_value (s : string) : Z :=
  match NilZero.int_of_string s with
  | Some d => Z.of_int d
  | None => 0
  end.

Definition decode (s : string) : Z * Z :=
  match s with
  | EmptyString => (0, 0)
  | String c rest =>
      if is_upper c
      then (Z.of_N (N_of_ascii c) - 65 + 2, digits_value rest)
      else (1, digits_value s)
  end.

Definition roundtrip_ok (pair : Z * Z) : bool :=
  let back := decode (FAU201Device.hardwareRevision
                        {| CP2130.majrel := fst pair; CP2130.minrel := snd pair |}) in
  (fst back =? fst pair) && (snd back =? snd pair).

(** The pairs with major release 1..27 and minor release 0..255. *)
Definition domain : list (Z * Z) :=
  list_prod (map Z.of_nat (seq 1 27)) (map Z.of_nat (seq 0 256)).

End RevisionDecode.

(** The argument a caller passes for [n] millivolts: [n / 1000.0] (a
  [double] quotient, converted to [float] at the call) or [n / 1000.0f]
  (a [float] quotient). *)
Module Millivolt.

Definition of_double (n : Z) : FP.float :=
  FP.f64_to_f32 (FP.f64_literal n 1000).

Definition of_float (n : Z) : FP.float :=
  SFdiv 24 128 (FP.f32_of_int n) FAU201Device.f32_1000.

Definition step_ok (n : Z) : bool :=
  FP.f32_valid (of_double n) && FP.f32_valid (of_float n) &&
  negb (FP.is_nan (of_double n)) && negb (FP.is_nan (of_float n)) &&
  negb (FAU201Device.out_of_range (of_double n)) &&
  negb (FAU201Device.out_of_range (of_float n)) &&
  (FAU201Device.voltageCode (fun _ => 0) (of_double n) =? n) &&
  (FAU201Device.voltageCode (fun _ => 0) (of_float n) =? n).

End Millivolt.

(** Rounding to nearest with ties to even, as a relation: [q] is an integer
  nearest to [x / 2^k], and an even one when [x / 2^k] lies halfway between
  two integers. *)
Module NearestEven.

Definition rne (x k q : Z) : Prop :=
  Rounding.rounds_to x k q /\
  (2 * 2 ^ k * q = 2 * x + 2 ^ k \/ 2 * 2 ^ k * q = 2 * x - 2 ^ k ->
   Z.even q = true).

End NearestEven.

(* ===================================================================== *)
(** ** Running sessions: equations for [bind], [call], [usleep] *)
(* ===================================================================== *)

Section SessionLemmas.

Context {B : Type} `{CP2130.Bridge B}.

Lemma exec_bind {A C : Type} (c : M B A) (k : A -> M B C) (s : Session B) :
  exec (bind c k) s = exec (k (fst (c s))) (exec c s).
Proof. unfold exec, bind. destruct (c s); reflexivity. Qed.

Lemma exec_call ev (f : B -> ErrAcc -> B * ErrAcc) (s : Session B) :
  exec (call ev f) s =
  {| dev := fst (f (dev s) (err s)); err := snd (f (dev s) (err s));
     log := log s ++ [ev] |}.
Proof. unfold exec, call. destruct (f (dev s) (err s)); reflexivity. Qed.

Lemma exec_query {A : Type} ev (f : B -> ErrAcc -> A * (B * ErrAcc))
    (s : Session B) :
  exec (query ev f) s =
  {| dev := fst (snd (f (dev s) (err s)));
     err := snd (snd (f (dev s) (err s)));
     log := log s ++ [ev] |}.
Proof.
  unfold exec, query. destruct (f (dev s) (err s)) as [x [b a]]; reflexivity.
Qed.

Lemma exec_usleep us (s : Session B) :
  exec (usleep us) s =
  {| dev := dev s; err := err s; log := log s ++ [CP2130.EvUsleep us] |}.
Proof. reflexivity. Qed.

End SessionLemmas.

Ltac unfold_calls :=
  unfold cp2130_.reset, cp2130_.configureSPIMode, cp2130_.disableSPIDelays,
    cp2130_.selectCS, cp2130_.disableCS, cp2130_.spiWrite,
    cp2130_.getSiliconVersion, cp2130_.getManufacturerDesc,
    cp2130_.getProductDesc, cp2130_.getSerialDesc, cp2130_.getUSBConfig.

Ltac run_session :=
  unfold_calls;
  repeat (rewrite ?exec_bind, ?exec_call, ?exec_usleep, ?exec_query;
          cbn [dev err log]).

(* ===================================================================== *)
(** ** The accumulator only grows *)
(* ===================================================================== *)

Lemma acc_extends_refl (a : ErrAcc) : acc_extends a a.
Proof.
  split; [lia | exists EmptyString].
  induction (errstr a) as [|c t IH]; simpl; [reflexivity | now rewrite <- IH].
Qed.

Lemma string_app_assoc (x y z : string) :
  ((x ++ y) ++ z = x ++ (y ++ z))%string.
Proof. induction x as [|c x IH]; simpl; [reflexivity | now rewrite IH]. Qed.

Lemma acc_extends_trans (a b c : ErrAcc) :
  acc_extends a b -> acc_extends b c -> acc_extends a c.
Proof.
  intros [Hab [u Hu]] [Hbc [v Hv]]. split; [lia |].
  exists (u ++ v)%string. rewrite Hv, Hu. apply string_app_assoc.
Qed.

Lemma int_incr_below_max (i : Z) :
  MachInt.INT_MIN <= i < MachInt.INT_MAX -> MachInt.int_incr i = i + 1.
Proof.
  unfold MachInt.int_incr, MachInt.wrap_int, MachInt.INT_MIN, MachInt.INT_MAX.
  intros Hi. rewrite Z.mod_small; lia.
Qed.

(* ===================================================================== *)
(** ** hardwareRevision *)
(* ===================================================================== *)

Lemma to_char_letter (majrel : Z) :
  1 < majrel <= 27 ->
  FAU201Device.to_char (majrel + Z.of_N (N_of_ascii "A") - 2) =
  ascii_of_nat (nat_of_ascii "A" + Z.to_nat (majrel - 2)).
Proof.
  intros Hm. unfold FAU201Device.to_char, MachInt.to_uint8, ascii_of_nat.
  f_equal. change (Z.of_N (N_of_ascii "A")) with 65.
  change (nat_of_ascii "A") with 65%nat.
  rewrite Z.mod_small by lia. lia.
Qed.

(** C3 (as amended). [hardwareRevision] is a total function of the
  configuration record alone, and on the boundary cases of the
  specification it returns: majrel=1, minrel=0: "0"; majrel=2, minrel=0: "A";
  majrel=2, minrel=5: "A5"; majrel=1, minrel=3: "3"; majrel=28, minrel=0: the
  empty string.  A major release of 1 contributes no character of its own:
  only the minor release is printed. *)
Theorem hardwareRevision_boundary_cases :
  FAU201Device.hardwareRevision {| CP2130.majrel := 1; CP2130.minrel := 0 |} = "0"%string /\
  FAU201Device.hardwareRevision {| CP2130.majrel := 2; CP2130.minrel := 0 |} = "A"%string /\
  FAU201Device.hardwareRevision {| CP2130.majrel := 2; CP2130.minrel := 5 |} = "A5"%string /\
  FAU201Device.hardwareRevision {| CP2130.majrel := 1; CP2130.minrel := 3 |} = "3"%string /\
  FAU201Device.hardwareRevision {| CP2130.majrel := 28; CP2130.minrel := 0 |} = EmptyString.
Proof. repeat split; vm_compute; reflexivity. Qed.

(** C3 as the specification words it does not hold: with majrel=1, minrel=0
  the function returns "0", not "1" (and with majrel=1, minrel=3 it returns
  "3", not "13"). *)
Lemma hardwareRevision_major_1_not_printed :
  ~ (FAU201Device.hardwareRevision {| CP2130.majrel := 1; CP2130.minrel := 0 |} = "1"%string /\
     FAU201Device.hardwareRevision {| CP2130.majrel := 2; CP2130.minrel := 0 |} = "A"%string /\
     FAU201Device.hardwareRevision {| CP2130.majrel := 2; CP2130.minrel := 5 |} = "A5"%string /\
     FAU201Device.hardwareRevision {| CP2130.majrel := 1; CP2130.minrel := 3 |} = "13"%string /\
     FAU201Device.hardwareRevision {| CP2130.majrel := 28; CP2130.minrel := 0 |} = EmptyString).
Proof. intros [H1 _]. vm_compute in H1. discriminate H1. Qed.

(** C4. For every configuration record, [hardwareRevision] returns the letter
  part followed by the digit part: the letter is ['A' + (majrel - 2)]
  exactly when [1 < majrel <= 27] (empty otherwise), the digits are the
  decimal form of [minrel] exactly when [majrel = 1] or [minrel <> 0]
  (empty otherwise). *)
Theorem hardwareRevision_letter_then_digits (config : CP2130.USBConfig) :
  FAU201Device.hardwareRevision config =
  (RevisionSpec.letter_part (CP2130.majrel config) ++
   RevisionSpec.digit_part (CP2130.majrel config) (CP2130.minrel config))%string.
Proof.
  destruct config as [maj mnr].
  unfold FAU201Device.hardwareRevision, RevisionSpec.letter_part,
    RevisionSpec.digit_part, FAU201Device.int_to_string; cbn [CP2130.majrel CP2130.minrel].
  rewrite (Z.gtb_ltb maj 1).
  destruct (1 <? maj) eqn:Hlo; destruct (maj <=? 27) eqn:Hhi; cbn [andb];
    try reflexivity.
  apply Z.ltb_lt in Hlo. apply Z.leb_le in Hhi.
  rewrite to_char_letter by lia.
  destruct ((maj =? 1) || negb (mnr =? 0)); reflexivity.
Qed.

(* ===================================================================== *)
(** ** The DAC word *)
(* ===================================================================== *)

Lemma forallb_range (P : Z -> bool) (n : nat) :
  forallb P (map Z.of_nat (seq 0 n)) = true ->
  forall z, 0 <= z < Z.of_nat n -> P z = true.
Proof.
  intros Hall z Hz. rewrite forallb_forall in Hall. apply Hall.
  apply in_map_iff. exists (Z.to_nat z). split; [lia |].
  apply in_seq. lia.
Qed.

Lemma roundtrip_all_codes :
  forallb DacWord.roundtrip_ok (map Z.of_nat (seq 0 4096)) = true.
Proof. vm_compute. reflexivity. Qed.

(** C6. For every 12-bit code, the two data bytes on the wire are
  [code >> 4] and [(code << 4) & 0xF0], and re-assembling them as
  [(byte0 << 4) | (byte1 >> 4)] gives the code back. *)
Theorem dac_word_roundtrip (code : Z) :
  0 <= code <= 4095 ->
  DacWord.wire_bytes code = DacWord.pack code /\
  DacWord.unpack (DacWord.pack code) = code.
Proof.
  intros Hc.
  assert (Hok : DacWord.roundtrip_ok code = true).
  { apply (forallb_range _ 4096 roundtrip_all_codes). lia. }
  unfold DacWord.roundtrip_ok in Hok.
  apply andb_prop in Hok as [Hok Hrt]. apply andb_prop in Hok as [H0 H1].
  apply Z.eqb_eq in H0, H1, Hrt. split; [| exact Hrt].
  rewrite (surjective_pairing (DacWord.wire_bytes code)),
    (surjective_pairing (DacWord.pack code)). now rewrite H0, H1.
Qed.

Lemma dac_word_roundtrip_witness :
  0 <= 0xABC <= 4095 /\
  DacWord.wire_bytes 0xABC = DacWord.pack 0xABC /\
  DacWord.unpack (DacWord.pack 0xABC) = 0xABC.
Proof. split; [lia | apply (dac_word_roundtrip 0xABC); lia]. Defined.

(* ===================================================================== *)
(** ** setup *)
(* ===================================================================== *)

Section Setup.

Context {B : Type} `{CP2130.Bridge B}.

Import CP2130.

(** C5. Whatever the bridge does and whatever the accumulator holds,
    [setup] issues its six steps in the fixed order: SPI mode on channel 0
    (push-pull chip select, 750 kHz, CPOL0, CPHA0), SPI delays off on
    channel 0, chip select 0 asserted, the command [{0x70, 0x00, 0x00}]
    written to endpoint 0x01, a wait of 100 microseconds, chip select 0
    released.  Each bridge call receives the device and the accumulator the
    previous one left, so a failure reported by an earlier step never keeps
    a later one from running. *)
Theorem setup_six_steps_in_order (s : Session B) :
  let mode := {| csmode := CSMODEPP; cfrq := CFRQ750K;
                 cpol := CPOL0; cpha := CPHA0 |} in
  log (exec FAU201Device.setup s) =
    log s ++ [ EvConfigureSPIMode 0 mode;
               EvDisableSPIDelays 0;
               EvSelectCS 0;
               EvSpiWrite [0x70; 0x00; 0x00] 0x01;
               EvUsleep 100;
               EvDisableCS 0 ] /\
  (dev (exec FAU201Device.setup s), err (exec FAU201Device.setup s)) =
    thread [ configureSPIMode 0 mode;
             disableSPIDelays 0;
             selectCS 0;
             spiWrite [0x70; 0x00; 0x00] 0x01;
             disableCS 0 ] (dev s, err s).
Proof.
  intros mode. unfold FAU201Device.setup. run_session.
  split.
  - repeat rewrite <- app_assoc. reflexivity.
  - unfold thread. cbn [fold_left fst snd]. symmetry. apply surjective_pairing.
Qed.

End Setup.

(** On a device that was never opened every bridge call of [setup] fails, and
  all six steps are issued all the same. *)
Example setup_on_closed_device :
  let s := exec FAU201Device.setup (SimBridge.start [SimBridge.unit1]) in
  errcnt (err s) = 5 /\ List.length (log s) = 6%nat.
Proof. vm_compute. split; reflexivity. Qed.

(* ===================================================================== *)
(** ** open and close, on the simulated bridge *)
(* ===================================================================== *)

(** On any bridge, [open] hands the fixed vendor and product identifiers and
  the caller's serial to the bridge, returns the bridge's status as it is
  and leaves the accumulator alone. *)
Lemma open_delegates {B : Type} `{CP2130.Bridge B} (serial : string)
    (s : Session B) :
  FAU201Device.open serial s =
  (fst (CP2130.open 0x10C4 0x8C46 serial (dev s)),
   {| dev := snd (CP2130.open 0x10C4 0x8C46 serial (dev s));
      err := err s;
      log := log s ++ [CP2130.EvOpen 0x10C4 0x8C46 serial] |}).
Proof.
  unfold FAU201Device.open, cp2130_.open.
  change FAU201Device.VID with 0x10C4. change FAU201Device.PID with 0x8C46.
  destruct (CP2130.open 0x10C4 0x8C46 serial (dev s)); reflexivity.
Qed.

Lemma sim_open_status vid pid serial st :
  In (fst (SimBridge.sim_open vid pid serial st)) [0; 1; 2; 3].
Proof.
  unfold SimBridge.sim_open.
  destruct (negb (SimBridge.transport_ok st)); [simpl; tauto |].
  destruct (find _ _) as [u|]; [| simpl; tauto].
  destruct (SimBridge.u_in_use u); simpl; tauto.
Qed.

Lemma sim_open_failure vid pid serial st :
  fst (SimBridge.sim_open vid pid serial st) <> 0 ->
  snd (SimBridge.sim_open vid pid serial st) = st.
Proof.
  unfold SimBridge.sim_open.
  destruct (negb (SimBridge.transport_ok st)); [reflexivity |].
  destruct (find _ _) as [u|]; [| reflexivity].
  destruct (SimBridge.u_in_use u); [reflexivity |].
  simpl. intros Hne. now elim Hne.
Qed.

Lemma sim_open_success vid pid serial st :
  fst (SimBridge.sim_open vid pid serial st) = 0 ->
  SimBridge.sim_isOpen (snd (SimBridge.sim_open vid pid serial st)) = true.
Proof.
  unfold SimBridge.sim_open.
  destruct (negb (SimBridge.transport_ok st)); [discriminate |].
  destruct (find _ _) as [u|]; [| discriminate].
  destruct (SimBridge.u_in_use u); [discriminate |].
  reflexivity.
Qed.

(** C7. Whether a serial is given or not, [open] returns (it is a total
  function) exactly what the bridge's [open] answers for vendor ID 0x10C4,
  product ID 0x8C46 and that serial, and keeps the device the bridge hands
  back; the accumulator is left alone.  The status is one of success,
  initialization failure, not-found and already-in-use.  On success the
  handle is open; on any other status the device is as it was before the
  call, so a handle that was not open stays not open. *)
Theorem open_returns_closed_status (serial : string)
    (s : Session SimBridge.State) :
  let status := fst (FAU201Device.open serial s) in
  let s' := snd (FAU201Device.open serial s) in
  status = fst (CP2130.open 0x10C4 0x8C46 serial (dev s)) /\
  dev s' = snd (CP2130.open 0x10C4 0x8C46 serial (dev s)) /\
  log s' = log s ++ [CP2130.EvOpen 0x10C4 0x8C46 serial] /\
  err s' = err s /\
  In status [CP2130.SUCCESS; CP2130.ERROR_INIT; CP2130.ERROR_NOT_FOUND;
             CP2130.ERROR_BUSY] /\
  (status = CP2130.SUCCESS -> CP2130.isOpen (dev s') = true) /\
  (status <> CP2130.SUCCESS ->
   dev s' = dev s /\ CP2130.isOpen (dev s') = CP2130.isOpen (dev s)) /\
  (status <> CP2130.SUCCESS -> CP2130.isOpen (dev s) = false ->
   CP2130.isOpen (dev s') = false).
Proof.
  intros status s'. subst status s'. rewrite open_delegates.
  cbn [fst snd dev err log].
  split; [reflexivity |]. split; [reflexivity |].
  split; [reflexivity |]. split; [reflexivity |].
  split; [apply sim_open_status |].
  split; [| split].
  - intros Hok. now apply sim_open_success.
  - intros Hfail. cbn in Hfail |- *.
    rewrite (sim_open_failure _ _ _ _ Hfail). split; reflexivity.
  - intros Hfail Hclosed. cbn in Hfail |- *.
    rewrite (sim_open_failure _ _ _ _ Hfail). exact Hclosed.
Qed.

(** With no unit attached: not-found, and the handle stays closed.  With a
  free unit attached: success, and the handle is open. *)
Lemma open_returns_closed_status_witness :
  let s0 := SimBridge.start [] in
  let s1 := SimBridge.start [SimBridge.unit1] in
  CP2130.isOpen (dev s0) = false /\
  fst (FAU201Device.open EmptyString s0) = CP2130.ERROR_NOT_FOUND /\
  CP2130.isOpen (dev (snd (FAU201Device.open EmptyString s0))) = false /\
  fst (FAU201Device.open EmptyString s1) = CP2130.SUCCESS /\
  CP2130.isOpen (dev (snd (FAU201Device.open EmptyString s1))) = true.
Proof.
  intros s0 s1.
  pose proof (open_returns_closed_status EmptyString s0) as H0.
  pose proof (open_returns_closed_status EmptyString s1) as H1.
  cbv zeta in H0, H1.
  destruct H0 as (_ & _ & _ & _ & _ & _ & _ & Hstays).
  destruct H1 as (_ & _ & _ & _ & _ & Hopen & _).
  split; [reflexivity |]. split; [reflexivity |].
  split; [apply Hstays; [vm_compute; discriminate | reflexivity] |].
  split; [reflexivity |].
  apply Hopen. reflexivity.
Defined.

Lemma sim_close_closed st : SimBridge.sim_isOpen (SimBridge.sim_close st) = false.
Proof.
  unfold SimBridge.sim_close, SimBridge.sim_isOpen.
  destruct (SimBridge.handle st) eqn:Hh; cbn; [reflexivity | now rewrite Hh].
Qed.

Lemma sim_close_noop st :
  SimBridge.sim_isOpen st = false -> SimBridge.sim_close st = st.
Proof.
  unfold SimBridge.sim_close, SimBridge.sim_isOpen.
  destruct (SimBridge.handle st); [discriminate | reflexivity].
Qed.

(** C8. [close] is total; it releases the handle if one is held and changes
  nothing otherwise, so a second [close] in a row, or a [close] without a
  prior successful [open], leaves the device as it is; in no case does it
  touch the accumulator. *)
Theorem close_idempotent (s : Session SimBridge.State) :
  let s1 := exec FAU201Device.close s in
  let s2 := exec FAU201Device.close s1 in
  CP2130.isOpen (dev s1) = false /\
  SimBridge.handle (dev s1) = None /\
  dev s2 = dev s1 /\
  (CP2130.isOpen (dev s) = false -> dev s1 = dev s) /\
  err s1 = err s /\ err s2 = err s.
Proof.
  cbv zeta. unfold exec, FAU201Device.close, cp2130_.close. cbn [snd dev err log].
  change (@CP2130.close _ SimBridge.bridge) with SimBridge.sim_close.
  change (@CP2130.isOpen _ SimBridge.bridge) with SimBridge.sim_isOpen.
  pose proof (sim_close_closed (dev s)) as Hc.
  repeat split.
  - exact Hc.
  - unfold SimBridge.sim_isOpen in Hc.
    destruct (SimBridge.handle (SimBridge.sim_close (dev s)));
      [discriminate | reflexivity].
  - now apply sim_close_noop.
  - apply sim_close_noop.
Qed.

(** A session that opens the free unit and then closes twice. *)
Lemma close_idempotent_witness :
  let s := exec (FAU201Device.open EmptyString)
                (SimBridge.start [SimBridge.unit1]) in
  CP2130.isOpen (dev s) = true /\
  CP2130.isOpen (dev (exec FAU201Device.close s)) = false /\
  dev (exec FAU201Device.close (exec FAU201Device.close s)) =
  dev (exec FAU201Device.close s).
Proof.
  intros s. destruct (close_idempotent s) as (Hc & _ & Hi & _).
  split; [reflexivity |]. split; [exact Hc | exact Hi].
Defined.

(* ===================================================================== *)
(** ** Floating-point facts *)
(* ===================================================================== *)

Import Rounding.

(** *** Shifts and rounding to nearest even *)

Lemma digits2_pos_bounds (m : positive) :
  2 ^ (Zpos (digits2_pos m) - 1) <= Zpos m < 2 ^ Zpos (digits2_pos m).
Proof.
  induction m as [m IH | m IH |]; cbn [digits2_pos].
  - rewrite Pos2Z.inj_succ.
    replace (Z.succ (Zpos (digits2_pos m)) - 1) with (Z.succ (Zpos (digits2_pos m) - 1)) by lia.
    rewrite !Z.pow_succ_r by lia. lia.
  - rewrite Pos2Z.inj_succ.
    replace (Z.succ (Zpos (digits2_pos m)) - 1) with (Z.succ (Zpos (digits2_pos m) - 1)) by lia.
    rewrite !Z.pow_succ_r by lia. lia.
  - cbn. lia.
Qed.

Lemma digits2_pos_upper (m : positive) (d : Z) :
  Zpos m < 2 ^ d -> Zpos (digits2_pos m) <= d.
Proof.
  intros Hm. destruct (Z_le_gt_dec (Zpos (digits2_pos m)) d) as [|Hgt]; [assumption |].
  pose proof (digits2_pos_bounds m) as [Hlo _].
  assert (0 <= d). { destruct (Z_lt_le_dec d 0) as [Hn|]; [| assumption].
    rewrite (Z.pow_neg_r 2 d Hn) in Hm. lia. }
  assert (2 ^ d <= 2 ^ (Zpos (digits2_pos m) - 1)) by (apply Z.pow_le_mono_r; lia).
  lia.
Qed.

Lemma digits2_pos_lower (m : positive) (d : Z) :
  2 ^ d <= Zpos m -> d < Zpos (digits2_pos m).
Proof.
  intros Hm. destruct (Z_lt_le_dec d (Zpos (digits2_pos m))) as [|Hle]; [assumption |].
  pose proof (digits2_pos_bounds m) as [_ Hhi].
  assert (2 ^ Zpos (digits2_pos m) <= 2 ^ d) by (apply Z.pow_le_mono_r; lia).
  lia.
Qed.

Lemma shr_inv_init (x : Z) : 0 <= x -> shr_inv x 0 (Build_shr_record x false false).
Proof.
  intros Hx. split; [exact Hx |]. exists 0, 0. cbn [shr_m shr_r shr_s].
  rewrite Z.pow_0_r. repeat split; try lia; intros; try discriminate; lia.
Qed.

Lemma shr_1_inv (x k : Z) (r : shr_record) :
  0 <= k -> shr_inv x k r -> shr_inv x (k + 1) (shr_1 r).
Proof.
  intros Hk [Hm (rho & tau & Hx & Hrho & Htau & Htb & Hs)].
  destruct r as [m rb sb]. cbn [shr_m shr_r shr_s] in *.
  assert (Hpow : 2 ^ (k + 1) = 2 * 2 ^ k)
    by (rewrite Z.pow_add_r, Z.pow_1_r by lia; lia).
  assert (HP : 0 < 2 ^ k) by (apply Z.pow_pos_nonneg; lia).
  unfold shr_inv. rewrite Hpow. clear Hpow.
  set (P := 2 ^ k) in *.
  assert (Hsb : (rb || sb = true) <-> 0 < (if rb then P else 0) + tau).
  { destruct rb; cbn [orb]; [split; intros; [lia | reflexivity] |].
    rewrite Hs. lia. }
  destruct m as [| [p | p |] | p]; try lia; cbn [shr_1 shr_m shr_r shr_s]; (split; [lia |]).
  - exists rho, ((if rb then P else 0) + tau). repeat split; try lia; apply Hsb.
  - exists (P + rho), ((if rb then P else 0) + tau).
    rewrite Pos2Z.inj_xI in Hx. repeat split; try lia; apply Hsb.
  - exists rho, ((if rb then P else 0) + tau).
    rewrite Pos2Z.inj_xO in Hx. repeat split; try lia; apply Hsb.
  - exists (P + rho), ((if rb then P else 0) + tau).
    repeat split; try lia; apply Hsb.
Qed.

Lemma iter_pos_shr_inv (x : Z) (p : positive) :
  forall k r, 0 <= k -> shr_inv x k r ->
  shr_inv x (k + Zpos p) (iter_pos shr_1 p r).
Proof.
  induction p as [p IH | p IH |]; intros k r Hk Hr; cbn [iter_pos].
  - replace (k + Zpos p~1) with (k + 1 + Zpos p + Zpos p) by lia.
    apply IH; [lia |]. apply IH; [lia |]. now apply shr_1_inv.
  - replace (k + Zpos p~0) with (k + Zpos p + Zpos p) by lia.
    apply IH; [lia |]. now apply IH.
  - now apply shr_1_inv.
Qed.

Lemma shr_spec (x e n : Z) :
  0 <= x -> 0 <= n ->
  shr_inv x n (fst (shr (Build_shr_record x false false) e n)) /\
  snd (shr (Build_shr_record x false false) e n) = e + n.
Proof.
  intros Hx Hn. destruct n as [| p | p]; try lia; cbn [shr fst snd].
  - split; [now apply shr_inv_init | lia].
  - split; [| reflexivity].
    apply (iter_pos_shr_inv x p 0); [lia | now apply shr_inv_init].
Qed.

Lemma round_nearest_even_spec (x k : Z) (r : shr_record) :
  0 <= k -> shr_inv x k r ->
  rounds_to x k (round_nearest_even (shr_m r) (loc_of_shr_record r)).
Proof.
  intros Hk [Hm (rho & tau & Hx & Hrho & Htau & Htb & Hs)].
  destruct r as [m rb sb]. cbn [shr_m shr_r shr_s] in *.
  assert (HP : 0 < 2 ^ k) by (apply Z.pow_pos_nonneg; lia).
  unfold rounds_to. set (P := 2 ^ k) in *.
  destruct rb, sb; cbn [loc_of_shr_record round_nearest_even].
  - assert (0 < tau) by (apply Hs; reflexivity). nia.
  - assert (~ 0 < tau) by (rewrite <- Hs; discriminate).
    destruct (Z.even m); nia.
  - nia.
  - nia.
Qed.

Section BinaryRound.

Variables prec emax : Z.
Hypothesis prec_pos : 0 < prec.

Lemma fexp_ge_emin (e : Z) : emin prec emax <= fexp prec emax e.
Proof. unfold fexp. lia. Qed.

Lemma second_shift_none (q e1 : Z) :
  emin prec emax <= e1 -> 0 <= q < 2 ^ prec ->
  shr_fexp prec emax q e1 loc_Exact = (Build_shr_record q false false, e1).
Proof.
  intros He Hq. unfold shr_fexp. cbn [shr_record_of_loc].
  assert (Hn : fexp prec emax (Zdigits2 q + e1) - e1 <= 0).
  { unfold fexp. destruct q as [| qp | qp]; cbn [Zdigits2]; try lia.
    pose proof (digits2_pos_upper qp prec (proj2 Hq)). lia. }
  destruct (fexp prec emax (Zdigits2 q + e1) - e1); cbn [shr]; try reflexivity; lia.
Qed.

Lemma second_shift_carry (e1 : Z) :
  emin prec emax <= e1 ->
  shr_m (fst (shr_fexp prec emax (2 ^ prec) e1 loc_Exact)) = 2 ^ (prec - 1) /\
  snd (shr_fexp prec emax (2 ^ prec) e1 loc_Exact) = e1 + 1.
Proof.
  intros He. unfold shr_fexp. cbn [shr_record_of_loc].
  assert (Hpp : 0 < 2 ^ prec) by (apply Z.pow_pos_nonneg; lia).
  assert (Hd : Zdigits2 (2 ^ prec) = prec + 1).
  { destruct (2 ^ prec) as [| qp | qp] eqn:Hq; try lia. cbn [Zdigits2].
    pose proof (digits2_pos_bounds qp) as [Hlo Hhi]. rewrite <- Hq in Hlo, Hhi.
    assert (prec < Zpos (digits2_pos qp)).
    { apply Z.pow_lt_mono_r_iff in Hhi; lia. }
    assert (Zpos (digits2_pos qp) - 1 <= prec).
    { apply Z.pow_le_mono_r_iff in Hlo; lia. }
    lia. }
  rewrite Hd. unfold fexp.
  replace (Z.max (prec + 1 + e1 - prec) (emin prec emax) - e1) with 1 by lia.
  destruct (shr_spec (2 ^ prec) e1 1) as [Hinv He']; try lia.
  split; [| exact He'].
  destruct Hinv as [Hm (rho & tau & Hx & Hrho & _)].
  assert (Hhalf : 2 ^ prec = 2 * 2 ^ (prec - 1))
    by (rewrite <- Z.pow_succ_r by lia; f_equal; lia).
  rewrite Z.pow_1_r in Hx, Hrho. lia.
Qed.

Lemma binary_round_aux_spec (s : bool) (x : positive) (ex : Z) :
  ex <= fexp prec emax (Zpos (digits2_pos x) + ex) ->
  exists q,
    rounds_to (Zpos x) (fexp prec emax (Zpos (digits2_pos x) + ex) - ex) q /\
    q <= 2 ^ prec /\
    binary_round_aux prec emax s (Zpos x) ex loc_Exact =
    finish prec emax s q (fexp prec emax (Zpos (digits2_pos x) + ex)).
Proof.
  intros Hex. set (e1 := fexp prec emax (Zpos (digits2_pos x) + ex)) in *.
  assert (He1 : emin prec emax <= e1) by apply fexp_ge_emin.
  assert (Hpp : 0 < 2 ^ prec) by (apply Z.pow_pos_nonneg; lia).
  unfold binary_round_aux.
  assert (Hfst : shr_fexp prec emax (Zpos x) ex loc_Exact =
                 shr (Build_shr_record (Zpos x) false false) ex (e1 - ex))
    by reflexivity.
  rewrite Hfst. clear Hfst.
  destruct (shr_spec (Zpos x) ex (e1 - ex)) as [Hinv He']; try lia.
  destruct (shr (Build_shr_record (Zpos x) false false) ex (e1 - ex))
    as [mrs' e'] eqn:Hshr.
  cbn [fst snd] in Hinv, He'. replace e' with e1 by lia.
  assert (Hk0 : 0 <= e1 - ex) by lia.
  pose proof (round_nearest_even_spec (Zpos x) (e1 - ex) mrs' Hk0 Hinv) as Hq.
  set (q := round_nearest_even (shr_m mrs') (loc_of_shr_record mrs')) in *.
  assert (Hqle : q <= 2 ^ prec).
  { destruct Hq as [Hq0 [_ Hup]].
    pose proof (digits2_pos_bounds x) as [_ Hx].
    assert (Hk : Zpos (digits2_pos x) <= (e1 - ex) + prec)
      by (unfold e1, fexp; lia).
    assert (H2 : 2 ^ Zpos (digits2_pos x) <= 2 ^ (e1 - ex) * 2 ^ prec).
    { rewrite <- Z.pow_add_r by lia. apply Z.pow_le_mono_r; lia. }
    assert (HP : 0 < 2 ^ (e1 - ex)) by (apply Z.pow_pos_nonneg; lia).
    nia. }
  exists q. split; [exact Hq |]. split; [exact Hqle |].
  unfold finish. destruct Hq as [Hq0 _].
  destruct (Z.eqb_spec q 0) as [Hz | Hnz].
  - rewrite Hz, (second_shift_none 0 e1) by lia. reflexivity.
  - destruct (Z.ltb_spec q (2 ^ prec)) as [Hlt | Hge].
    + rewrite (second_shift_none q e1) by lia. cbn [shr_m].
      destruct q as [| qp | qp]; try lia. reflexivity.
    + assert (Hqe : q = 2 ^ prec) by lia. rewrite Hqe.
      destruct (second_shift_carry e1 He1) as [Hm He2].
      destruct (shr_fexp prec emax (2 ^ prec) e1 loc_Exact) as [mrs'' e''].
      cbn [fst snd] in Hm, He2. rewrite Hm, He2.
      assert (0 < 2 ^ (prec - 1)) by (apply Z.pow_pos_nonneg; lia).
      destruct (2 ^ (prec - 1)) as [| pp | pp]; try lia. reflexivity.
Qed.

End BinaryRound.

(** *** Alignment, validity and the range check *)

Lemma shl_align_spec (m : positive) (e e' : Z) :
  Zpos (fst (shl_align m e e')) = Zpos m * 2 ^ (e - Z.min e e') /\
  snd (shl_align m e e') = Z.min e e'.
Proof.
  unfold shl_align. destruct (e' - e) as [| d | d] eqn:Hd; cbn [fst snd].
  - replace (Z.min e e') with e by lia. rewrite Z.sub_diag. split; lia.
  - replace (Z.min e e') with e by lia. rewrite Z.sub_diag. split; lia.
  - replace (Z.min e e') with e' by lia.
    split; [| reflexivity].
    change (Pos.iter xO m d) with (Zpower.shift_pos d m).
    rewrite Zpower.shift_pos_correct.
    replace (e - e') with (Zpos d) by lia.
    change (Z.pow_pos 2 d) with (2 ^ Zpos d). lia.
Qed.

Lemma f32_valid_finite (s : bool) (m : positive) (e : Z) :
  FP.f32_valid (S754_finite s m e) = true ->
  -149 <= e <= 104 /\ Zpos m < 2 ^ 24 /\ (-149 < e -> 2 ^ 23 <= Zpos m).
Proof.
  unfold FP.f32_valid, valid_binary, bounded, canonical_mantissa, fexp.
  change (emin 24 128) with (-149). change (128 - 24) with 104.
  intros Hv. apply andb_prop in Hv as [Hc He].
  apply Z.eqb_eq in Hc. apply Z.leb_le in He.
  pose proof (digits2_pos_bounds m) as [Hlo Hhi].
  assert (Hd : Zpos (digits2_pos m) <= 24) by lia.
  split; [lia |]. split.
  - assert (2 ^ Zpos (digits2_pos m) <= 2 ^ 24) by (apply Z.pow_le_mono_r; lia). lia.
  - intros Hn. assert (Hd24 : Zpos (digits2_pos m) = 24) by lia.
    rewrite Hd24 in Hlo. exact Hlo.
Qed.

(** The range check on a positive finite datum, in integers. *)
Lemma out_of_range_finite_pos (m : positive) (e : Z) :
  FAU201Device.out_of_range (S754_finite false m e) = true <->
  (-21 < e \/ (e = -21 /\ 8587837 < Zpos m)).
Proof.
  unfold FAU201Device.out_of_range, FP.f_lt, FP.f_gt, SFltb,
    FAU201Device.VOLTAGE_MIN, FAU201Device.VOLTAGE_MAX.
  cbn [SFcompare orb].
  destruct (Z.compare_spec (-21) e) as [He | He | He].
  - subst e. change (Pos.compare_cont Eq 8587837 m) with (Pos.compare 8587837 m).
    destruct (Pos.compare_spec 8587837 m) as [Hm | Hm | Hm].
    + subst m. split.
      * intros Hx. discriminate Hx.
      * intros [Hx | [_ Hx]]; [lia | discriminate Hx].
    + apply Pos2Z.pos_lt_pos in Hm. split.
      * intros _. lia.
      * reflexivity.
    + apply Pos2Z.pos_lt_pos in Hm. split.
      * intros Hx. discriminate Hx.
      * intros Hx. lia.
  - split; intros; [lia | reflexivity].
  - split; intros; [discriminate | lia].
Qed.

(** *** The single-precision product [voltage * 1000] *)

Lemma pow2_split (a b : Z) : 0 <= a -> 0 <= b -> 2 ^ (a + b) = 2 ^ a * 2 ^ b.
Proof. intros. now rewrite Z.pow_add_r. Qed.

Lemma product_in_range (m : positive) (e : Z) :
  FP.f32_valid (S754_finite false m e) = true ->
  FAU201Device.out_of_range (S754_finite false m e) = false ->
  let p := FP.f32_mul (S754_finite false m e) FAU201Device.f32_1000 in
  p = S754_zero false \/
  exists mp ep, p = S754_finite false mp ep /\
    Zpos mp < 2 ^ 24 /\ -149 <= ep <= -11 /\ Zpos mp <= 4095 * 2 ^ (- ep).
Proof.
  intros Hvalid Hin p.
  apply f32_valid_finite in Hvalid as (He & Hm & _).
  assert (Hrange : e < -21 \/ (e = -21 /\ Zpos m <= 8587837)).
  { pose proof (out_of_range_finite_pos m e) as Ho. rewrite Hin in Ho.
    assert (Hn : ~ (-21 < e \/ e = -21 /\ 8587837 < Zpos m)).
    { intros Hx. apply Ho in Hx. discriminate Hx. }
    lia. }
  clear Hin.
  unfold p, FP.f32_mul, FAU201Device.f32_1000, SFmul. cbn [xorb].
  set (x := (m * 16384000)%positive). set (ex := e + -14).
  assert (Hx : Zpos x = Zpos m * 16384000) by reflexivity.
  (* the exact product is below 4095 *)
  assert (Hlt : Zpos x < 4095 * 2 ^ (- ex)).
  { unfold ex. destruct Hrange as [Hlo | [He21 Hm21]].
    - assert (2 ^ 36 <= 2 ^ (- (e + -14))) by (apply Z.pow_le_mono_r; lia).
      replace (2 ^ 24) with 16777216 in Hm by reflexivity.
      replace (2 ^ 36) with 68719476736 in * by reflexivity. lia.
    - subst e. replace (2 ^ (- (-21 + -14))) with 34359738368 by reflexivity. lia. }
  assert (Hd_lo : 24 <= Zpos (digits2_pos x)).
  { assert (23 < Zpos (digits2_pos x)); [| lia].
    apply digits2_pos_lower. change (2 ^ 23) with 8388608. lia. }
  assert (Hd_hi : Zpos (digits2_pos x) <= 12 - ex).
  { apply digits2_pos_upper. replace (12 - ex) with (12 + - ex) by lia.
    rewrite pow2_split by (unfold ex; lia). change (2 ^ 12) with 4096.
    assert (0 < 2 ^ (- ex)) by (apply Z.pow_pos_nonneg; unfold ex; lia). lia. }
  destruct (binary_round_aux_spec 24 128 ltac:(lia) false x ex) as (q & Hq & Hq24 & Hres).
  { unfold fexp. lia. }
  rewrite Hres. clear Hres.
  set (e1 := fexp 24 128 (Zpos (digits2_pos x) + ex)) in *.
  assert (He1 : -149 <= e1 <= -12 /\ ex <= e1).
  { unfold e1, fexp. change (emin 24 128) with (-149). lia. }
  assert (HqN : q <= 4095 * 2 ^ (- e1)).
  { destruct Hq as [_ [_ Hup]].
    assert (Hsplit : 2 ^ (- ex) = 2 ^ (- e1) * 2 ^ (e1 - ex)).
    { rewrite <- pow2_split by lia. f_equal. lia. }
    assert (0 < 2 ^ (e1 - ex)) by (apply Z.pow_pos_nonneg; lia).
    assert (0 < 2 ^ (- e1)) by (apply Z.pow_pos_nonneg; lia).
    rewrite Hsplit in Hlt. nia. }
  unfold finish. change (128 - 24) with 104.
  destruct Hq as [Hq0 _].
  destruct (Z.eqb_spec q 0); [now left | right].
  destruct (Z.ltb_spec q (2 ^ 24)) as [Hlt24 | Hge24].
  - destruct (Z.leb_spec e1 104); [| lia].
    exists (Z.to_pos q), e1. rewrite Z2Pos.id by lia. repeat split; try lia.
  - destruct (Z.leb_spec (e1 + 1) 104); [| lia].
    exists (Z.to_pos (2 ^ (24 - 1))), (e1 + 1).
    rewrite Z2Pos.id by reflexivity.
    assert (Hsplit : 2 ^ (- e1) = 2 * 2 ^ (- (e1 + 1))).
    { rewrite <- Z.pow_succ_r by lia. f_equal. lia. }
    change (2 ^ (24 - 1)) with 8388608. change (2 ^ 24) with 16777216 in *.
    repeat split; try lia.
Qed.

(** *** Promotion of the product to [double] *)

Lemma promotion_exact (mp : positive) (ep : Z) :
  Zpos mp < 2 ^ 24 -> -149 <= ep <= 0 ->
  exists mz ez c,
    FP.f32_to_f64 (S754_finite false mp ep) = S754_finite false mz ez /\
    ez <= ep /\ Zpos mz = Zpos mp * 2 ^ (ep - ez) /\
    Zpos mz = c * 2 ^ 29 /\ 2 ^ 52 <= Zpos mz <= 2 ^ 53 - 2 ^ 29.
Proof.
  intros Hmp Hep. unfold FP.f32_to_f64, binary_round.
  pose proof (digits2_pos_bounds mp) as [Hlo Hhi].
  set (dp := Zpos (digits2_pos mp)) in *.
  assert (Hdp : 1 <= dp <= 24).
  { split; [unfold dp; lia | apply digits2_pos_upper; exact Hmp]. }
  assert (Hfexp : fexp 53 1024 (dp + ep) = dp + ep - 53).
  { unfold fexp. change (emin 53 1024) with (-1074). lia. }
  rewrite Hfexp.
  destruct (shl_align_spec mp ep (dp + ep - 53)) as [Hm He].
  destruct (shl_align mp ep (dp + ep - 53)) as [mz ez]. cbn [fst snd] in Hm, He.
  replace (Z.min ep (dp + ep - 53)) with (dp + ep - 53) in Hm, He by lia.
  replace (ep - (dp + ep - 53)) with (53 - dp) in Hm by lia.
  assert (Hpow : 2 ^ 53 = 2 ^ dp * 2 ^ (53 - dp)).
  { rewrite <- pow2_split by lia. f_equal. lia. }
  assert (Hpow' : 2 ^ 52 = 2 ^ (dp - 1) * 2 ^ (53 - dp)).
  { rewrite <- pow2_split by lia. f_equal. lia. }
  assert (Hpow29 : 2 ^ (53 - dp) = 2 ^ (24 - dp) * 2 ^ 29).
  { rewrite <- pow2_split by lia. f_equal. lia. }
  assert (HT : 0 < 2 ^ (53 - dp)) by (apply Z.pow_pos_nonneg; lia).
  assert (HT29 : 0 < 2 ^ (24 - dp)) by (apply Z.pow_pos_nonneg; lia).
  assert (Hmz : 2 ^ 52 <= Zpos mz <= 2 ^ 53 - 2 ^ 29).
  { rewrite Hm, Hpow', Hpow. split; [nia |].
    assert (2 ^ 29 <= 2 ^ (53 - dp)) by (apply Z.pow_le_mono_r; lia). nia. }
  assert (Hdz : Zpos (digits2_pos mz) = 53).
  { assert (52 < Zpos (digits2_pos mz)) by (apply digits2_pos_lower; lia).
    assert (Zpos (digits2_pos mz) <= 53).
    { apply digits2_pos_upper. change (2 ^ 29) with 536870912 in Hmz. lia. }
    lia. }
  destruct (binary_round_aux_spec 53 1024 ltac:(lia) false mz ez) as (q & Hq & _ & Hres).
  { rewrite Hdz. unfold fexp. lia. }
  rewrite Hres, Hdz.
  assert (Hfz : fexp 53 1024 (53 + ez) = ez).
  { unfold fexp. change (emin 53 1024) with (-1074). lia. }
  rewrite Hdz in Hq. rewrite Hfz in Hq |- *. rewrite Z.sub_diag in Hq.
  destruct Hq as [Hq0 Hq]. rewrite Z.pow_0_r in Hq.
  assert (Hqz : q = Zpos mz) by lia.
  exists mz, ez, (Zpos mp * 2 ^ (24 - dp)).
  split.
  - unfold finish. rewrite Hqz.
    destruct (Z.eqb_spec (Zpos mz) 0); [lia |].
    destruct (Z.ltb_spec (Zpos mz) (2 ^ 53)).
    + destruct (Z.leb_spec ez (1024 - 53)); [reflexivity | lia].
    + change (2 ^ 29) with 536870912 in Hmz. lia.
  - split; [lia |]. split.
    + rewrite Hm. f_equal. f_equal. lia.
    + split; [| exact Hmz]. rewrite Hm, Hpow29. ring.
Qed.

(** *** Adding one half in double precision and truncating *)

Lemma binary_round_no_shift (s : bool) (M : positive) (e : Z) :
  e <= fexp 53 1024 (Zpos (digits2_pos M) + e) ->
  exists q,
    rounds_to (Zpos M) (fexp 53 1024 (Zpos (digits2_pos M) + e) - e) q /\
    q <= 2 ^ 53 /\
    binary_round 53 1024 s M e =
    finish 53 1024 s q (fexp 53 1024 (Zpos (digits2_pos M) + e)).
Proof.
  intros He. unfold binary_round.
  destruct (shl_align_spec M e (fexp 53 1024 (Zpos (digits2_pos M) + e))) as [Hm Hs].
  destruct (shl_align M e (fexp 53 1024 (Zpos (digits2_pos M) + e))) as [mz ez].
  cbn [fst snd] in Hm, Hs.
  replace (Z.min e (fexp 53 1024 (Zpos (digits2_pos M) + e))) with e in Hm, Hs by lia.
  rewrite Z.sub_diag, Z.pow_0_r, Z.mul_1_r in Hm.
  injection Hm as Hm. subst mz ez.
  apply binary_round_aux_spec; [lia | exact He].
Qed.

Lemma trunc_finish (q e : Z) :
  0 < q < 2 ^ 53 -> e <= 0 ->
  FP.trunc (finish 53 1024 false q e) = Some (q / 2 ^ (- e)).
Proof.
  intros Hq He. unfold finish.
  destruct (Z.eqb_spec q 0); [lia |].
  destruct (Z.ltb_spec q (2 ^ 53)); [| lia].
  destruct (Z.leb_spec e (1024 - 53)); [| lia].
  cbn [FP.trunc cond_Zopp]. rewrite Z2Pos.id by lia.
  now rewrite Z.shiftl_div_pow2 by lia.
Qed.

Lemma add_half_trunc (mz : positive) (ez c : Z) :
  Zpos mz = c * 2 ^ 29 -> 2 ^ 52 <= Zpos mz <= 2 ^ 53 - 2 ^ 29 ->
  ez <= 0 -> Zpos mz <= 4095 * 2 ^ (- ez) ->
  FP.trunc (FP.f64_add (S754_finite false mz ez) FAU201Device.f64_half) =
  Some (rhu_dyadic (Zpos mz) ez).
Proof.
  intros Hc Hmz Hez Hval.
  unfold FP.f64_add, FAU201Device.f64_half, SFadd. cbn [cond_Zopp].
  set (ez' := Z.min ez (-53)).
  destruct (shl_align_spec mz ez ez') as [Ha _].
  destruct (shl_align_spec 4503599627370496 (-53) ez') as [Hb _].
  set (a := fst (shl_align mz ez ez')) in *.
  set (b := fst (shl_align 4503599627370496 (-53) ez')) in *.
  change (Zpos a + Zpos b) with (Zpos (a + b)). cbn [binary_normalize].
  assert (HM : Zpos (a + b) = Zpos a + Zpos b) by reflexivity.
  set (M := (a + b)%positive) in *.
  replace (Z.min ez ez') with ez' in Ha by (unfold ez'; lia).
  replace (Z.min (-53) ez') with ez' in Hb by (unfold ez'; lia).
  change (Zpos 4503599627370496) with (2 ^ 52) in Hb.
  change (2 ^ 29) with 536870912 in *.
  change (2 ^ 52) with 4503599627370496 in *.
  change (2 ^ 53) with 9007199254740992 in *.
  unfold rhu_dyadic.
  destruct (Z_le_gt_dec (-53) ez) as [Hcase | Hcase].
  - (* the product has no bit below 2^-53: the sum is exact *)
    replace ez' with (-53) in * by (unfold ez'; lia).
    change (-53 - -53) with 0 in Hb. rewrite Z.pow_0_r, Z.mul_1_r in Hb.
    replace (ez - -53) with (ez + 53) in Ha by lia.
    set (T := 2 ^ (ez + 53)) in *.
    assert (HT : 0 < T) by (apply Z.pow_pos_nonneg; lia).
    assert (HTe : T * 2 ^ (- ez) = 9007199254740992).
    { unfold T. rewrite <- pow2_split by lia.
      replace (ez + 53 + - ez) with 53 by lia. reflexivity. }
    assert (HTd : T * 2 ^ (1 - ez) = 2 * 9007199254740992).
    { unfold T. rewrite <- pow2_split by lia.
      replace (ez + 53 + (1 - ez)) with 54 by lia. reflexivity. }
    assert (HMhi : Zpos M < 2 ^ 65).
    { change (2 ^ 65) with 36893488147419103232.
      assert (0 < 2 ^ (- ez)) by (apply Z.pow_pos_nonneg; lia). nia. }
    set (dM := Zpos (digits2_pos M)).
    assert (HdM : 53 <= dM <= 65).
    { split.
      - assert (52 < dM); [| lia]. apply digits2_pos_lower.
        change (2 ^ 52) with 4503599627370496. nia.
      - apply digits2_pos_upper. exact HMhi. }
    assert (Hfexp : fexp 53 1024 (dM + -53) = dM - 106).
    { unfold fexp. change (emin 53 1024) with (-1074). lia. }
    destruct (binary_round_no_shift false M (-53)) as (q & Hq & _ & Hres).
    { fold dM. rewrite Hfexp. lia. }
    fold dM in Hq, Hres. rewrite Hfexp in Hq, Hres. rewrite Hres. clear Hres.
    replace (dM - 106 - -53) with (dM - 53) in Hq by lia.
    set (k := dM - 53) in *.
    assert (Hk : 0 <= k <= 12) by (unfold k; lia).
    assert (HK : 0 < 2 ^ k) by (apply Z.pow_pos_nonneg; lia).
    (* M is a multiple of 2^k, so the rounding is exact *)
    assert (H29 : 536870912 = 2 ^ k * 2 ^ (29 - k)).
    { rewrite <- pow2_split by lia. replace (k + (29 - k)) with 29 by lia. reflexivity. }
    assert (H52 : 4503599627370496 = 2 ^ k * 2 ^ (52 - k)).
    { rewrite <- pow2_split by lia. replace (k + (52 - k)) with 52 by lia. reflexivity. }
    assert (Hexact : Zpos M = q * 2 ^ k).
    { destruct Hq as [Hq0 Hq].
      assert (HMk : Zpos M = (c * 2 ^ (29 - k) * T + 2 ^ (52 - k)) * 2 ^ k).
      { rewrite HM, Ha, Hb, Hc. rewrite H29 at 1. rewrite H52 at 1. ring. }
      set (y := c * 2 ^ (29 - k) * T + 2 ^ (52 - k)) in *. nia. }
    assert (HdMb : Zpos M < 2 ^ dM) by apply digits2_pos_bounds.
    assert (HqR : 0 < q < 9007199254740992).
    { assert (Hs : 2 ^ dM = 9007199254740992 * 2 ^ k).
      { change 9007199254740992 with (2 ^ 53). rewrite <- pow2_split by lia.
        f_equal. unfold k. lia. }
      nia. }
    rewrite trunc_finish by (change (2 ^ 53) with 9007199254740992; lia).
    f_equal.
    (* q / 2^(106-dM) = M / 2^53 = (2 mz + 2^-ez) / 2^(1-ez) *)
    replace (- (dM - 106)) with (53 - k) by (unfold k; lia).
    assert (H53 : 9007199254740992 = 2 ^ (53 - k) * 2 ^ k).
    { change 9007199254740992 with (2 ^ 53). rewrite <- pow2_split by lia.
      f_equal. lia. }
    assert (Hstep1 : q / 2 ^ (53 - k) = Zpos M / 9007199254740992).
    { rewrite Hexact, H53. rewrite Z.div_mul_cancel_r by lia. reflexivity. }
    rewrite Hstep1.
    assert (Hstep2 : (2 * Zpos mz + 2 ^ (- ez)) * T = 2 * Zpos M).
    { rewrite HM, Ha, Hb. rewrite Z.mul_add_distr_r, (Z.mul_comm (2 ^ (- ez)) T), HTe. ring. }
    rewrite <- (Z.div_mul_cancel_r (2 * Zpos mz + 2 ^ (- ez)) (2 ^ (1 - ez)) T) by lia.
    rewrite Hstep2, (Z.mul_comm (2 ^ (1 - ez)) T), HTd.
    rewrite Z.div_mul_cancel_l by lia. reflexivity.
  - (* the product is below 2^-1: the sum stays below 1 *)
    replace ez' with ez in * by (unfold ez'; lia).
    rewrite Z.sub_diag, Z.pow_0_r, Z.mul_1_r in Ha.
    set (k := -53 - ez) in *.
    assert (Hk : 1 <= k) by (unfold k; lia).
    assert (HK : 2 <= 2 ^ k).
    { change 2 with (2 ^ 1) at 1. apply Z.pow_le_mono_r; lia. }
    assert (HdM : Zpos (digits2_pos M) = - ez).
    { assert (Hpe : 2 ^ (- ez - 1) = 4503599627370496 * 2 ^ k).
      { change 4503599627370496 with (2 ^ 52). rewrite <- pow2_split by lia.
        f_equal. unfold k. lia. }
      assert (Hpe' : 2 ^ (- ez) = 2 * 2 ^ (- ez - 1)).
      { rewrite <- Z.pow_succ_r by lia. f_equal. lia. }
      assert (- ez - 1 < Zpos (digits2_pos M)) by (apply digits2_pos_lower; nia).
      assert (Zpos (digits2_pos M) <= - ez) by (apply digits2_pos_upper; nia).
      lia. }
    assert (Hfexp : fexp 53 1024 (- ez + ez) = -53).
    { replace (- ez + ez) with 0 by lia. reflexivity. }
    destruct (binary_round_no_shift false M ez) as (q & Hq & _ & Hres).
    { rewrite HdM, Hfexp. lia. }
    rewrite HdM, Hfexp in Hq, Hres. rewrite Hres. clear Hres. fold k in Hq.
    assert (HqR : 4503599627370496 <= q < 9007199254740992).
    { destruct Hq as [Hq0 [Hlo Hhi]]. nia. }
    rewrite trunc_finish by (change (2 ^ 53) with 9007199254740992; lia).
    f_equal. change (2 ^ (- -53)) with 9007199254740992.
    rewrite Z.div_small by lia.
    symmetry. apply Z.div_small.
    assert (Hp1 : 2 ^ (- ez) = 9007199254740992 * 2 ^ k).
    { change 9007199254740992 with (2 ^ 53). rewrite <- pow2_split by lia.
      f_equal. unfold k. lia. }
    assert (Hp2 : 2 ^ (1 - ez) = 2 * 2 ^ (- ez)).
    { rewrite <- Z.pow_succ_r by lia. f_equal. lia. }
    nia.
Qed.

(** *** The rationals denoted *)

Lemma Qpow2_nonneg (e : Z) : 0 <= e -> (2 ^ e == inject_Z (2 ^ e))%Q.
Proof. intros He. symmetry. exact (Zpower_Qpower 2 e He). Qed.

Lemma Qpow2_nonpos (e : Z) : e <= 0 -> (2 ^ e == 1 # Z.to_pos (2 ^ (- e)))%Q.
Proof.
  intros He. replace e with (- (- e)) at 1 by lia.
  rewrite Qpower_opp, Qpow2_nonneg by lia.
  assert (Hp : 0 < 2 ^ (- e)) by (apply Z.pow_pos_nonneg; lia).
  destruct (2 ^ (- e)) as [| p | p]; try lia. reflexivity.
Qed.

Lemma value_nonneg_exp (s : bool) (m : positive) (e : Z) :
  0 <= e ->
  (FP.value (S754_finite s m e) == inject_Z (cond_Zopp s (Zpos m) * 2 ^ e))%Q.
Proof.
  intros He. unfold FP.value. rewrite Qpow2_nonneg by exact He.
  now rewrite inject_Z_mult.
Qed.

Lemma value_nonpos_exp (s : bool) (m : positive) (e : Z) :
  e <= 0 ->
  (FP.value (S754_finite s m e) == cond_Zopp s (Zpos m) # Z.to_pos (2 ^ (- e)))%Q.
Proof.
  intros He. unfold FP.value. rewrite Qpow2_nonpos by exact He.
  unfold Qeq, Qmult, inject_Z. cbn [Qnum Qden]. lia.
Qed.

Lemma round_half_up_dyadic (m : positive) (e : Z) :
  e <= 0 ->
  FP.round_half_up (FP.value (S754_finite false m e)) = rhu_dyadic (Zpos m) e.
Proof.
  intros He. unfold FP.round_half_up.
  rewrite (Qfloor_comp _ _ (Qplus_comp _ _ (value_nonpos_exp false m e He) _ _ (Qeq_refl (1 # 2)))).
  assert (Hp : 0 < 2 ^ (- e)) by (apply Z.pow_pos_nonneg; lia).
  unfold rhu_dyadic. cbn [cond_Zopp].
  replace (2 ^ (1 - e)) with (2 ^ (- e) * 2)
    by (rewrite Z.mul_comm, <- Z.pow_succ_r by lia; f_equal; lia).
  unfold Qplus, Qfloor. cbn [Qnum Qden].
  rewrite Pos2Z.inj_mul, Z2Pos.id by exact Hp.
  f_equal. ring.
Qed.

Lemma rhu_dyadic_scale (m e t : Z) :
  0 <= t -> e <= 0 -> rhu_dyadic (m * 2 ^ t) (e - t) = rhu_dyadic m e.
Proof.
  intros Ht He. unfold rhu_dyadic.
  assert (HT : 0 < 2 ^ t) by (apply Z.pow_pos_nonneg; lia).
  assert (HD : 0 < 2 ^ (1 - e)) by (apply Z.pow_pos_nonneg; lia).
  replace (- (e - t)) with (- e + t) by lia.
  replace (1 - (e - t)) with (1 - e + t) by lia.
  rewrite !pow2_split by lia.
  replace (2 * (m * 2 ^ t) + 2 ^ (- e) * 2 ^ t) with ((2 * m + 2 ^ (- e)) * 2 ^ t) by ring.
  apply Z.div_mul_cancel_r; lia.
Qed.

Lemma rhu_dyadic_bound (m e : Z) :
  e <= 0 -> 0 <= m <= 4095 * 2 ^ (- e) -> 0 <= rhu_dyadic m e <= 4095.
Proof.
  intros He Hm. unfold rhu_dyadic.
  assert (HP : 0 < 2 ^ (- e)) by (apply Z.pow_pos_nonneg; lia).
  assert (HD : 2 ^ (1 - e) = 2 * 2 ^ (- e)).
  { rewrite <- Z.pow_succ_r by lia. f_equal. lia. }
  rewrite HD. split.
  - apply Z.div_pos; lia.
  - assert ((2 * m + 2 ^ (- e)) / (2 * 2 ^ (- e)) < 4096); [| lia].
    apply Z.div_lt_upper_bound; lia.
Qed.

(** *** The interval [0, 4.095] and the range check *)

Lemma value_le_max (m : positive) (e : Z) :
  FP.f32_valid (S754_finite false m e) = true ->
  (FP.value (S754_finite false m e) <= 4095 # 1000)%Q <->
  (e < -21 \/ (e = -21 /\ Zpos m <= 8587837)).
Proof.
  intros Hvalid. apply f32_valid_finite in Hvalid as (He & Hm & Hnorm).
  change (2 ^ 24) with 16777216 in Hm. change (2 ^ 23) with 8388608 in Hnorm.
  destruct (Z_le_gt_dec e 0) as [Hneg | Hpos].
  - rewrite (value_nonpos_exp false m e Hneg). unfold Qle. cbn [Qnum Qden cond_Zopp].
    assert (HP : 0 < 2 ^ (- e)) by (apply Z.pow_pos_nonneg; lia).
    rewrite Z2Pos.id by exact HP.
    destruct (Z_lt_le_dec e (-21)) as [Hlo | Hhi].
    + assert (2 ^ 22 <= 2 ^ (- e)) by (apply Z.pow_le_mono_r; lia).
      change (2 ^ 22) with 4194304 in *. split; intros; lia.
    + destruct (Z.eq_dec e (-21)) as [-> | Hne].
      * change (2 ^ (- -21)) with 2097152. split; intros; lia.
      * assert (2 ^ (- e) <= 2 ^ 20) by (apply Z.pow_le_mono_r; lia).
        change (2 ^ 20) with 1048576 in *. split; intros; lia.
  - rewrite (value_nonneg_exp false m e) by lia. unfold Qle. cbn [Qnum Qden cond_Zopp inject_Z].
    assert (0 < 2 ^ e) by (apply Z.pow_pos_nonneg; lia).
    split; intros; nia.
Qed.

Lemma value_sign (s : bool) (m : positive) (e : Z) :
  (0 <= FP.value (S754_finite s m e))%Q <-> s = false.
Proof.
  destruct (Z_le_gt_dec e 0) as [Hneg | Hpos].
  - rewrite (value_nonpos_exp s m e Hneg). unfold Qle. cbn [Qnum Qden].
    destruct s; cbn [cond_Zopp]; split; intros; try congruence; lia.
  - rewrite (value_nonneg_exp s m e) by lia. unfold Qle. cbn [Qnum Qden inject_Z].
    assert (0 < 2 ^ e) by (apply Z.pow_pos_nonneg; lia).
    destruct s; cbn [cond_Zopp]; split; intros; try congruence; nia.
Qed.

(** On a valid [float] other than NaN the range check of [setVoltage] decides
  membership in [0, 4.095]. *)
Lemma out_of_range_iff (v : FP.float) :
  FP.f32_valid v = true -> FP.is_nan v = false ->
  (FAU201Device.out_of_range v = false <-> VoltageSpec.in_interval v).
Proof.
  intros Hvalid Hnan. unfold VoltageSpec.in_interval.
  destruct v as [s | s | | s m e]; try discriminate.
  - split; [intros _ | destruct s; reflexivity].
    split; [reflexivity |]. split; unfold Qle; cbn; lia.
  - split; [destruct s; discriminate | intros [Hf _]; discriminate].
  - destruct s.
    + split; [discriminate |]. intros (_ & Hs & _).
      apply value_sign in Hs. discriminate.
    + rewrite (value_le_max m e Hvalid), (value_sign false m e).
      pose proof (out_of_range_finite_pos m e) as Hout.
      destruct (FAU201Device.out_of_range (S754_finite false m e)).
      * assert (-21 < e \/ e = -21 /\ 8587837 < Zpos m) by (now apply Hout).
        split; [discriminate | intros (_ & _ & ?); lia].
      * assert (~ (-21 < e \/ e = -21 /\ 8587837 < Zpos m))
          by (intros Hx; apply Hout in Hx; discriminate).
        split; [intros _ | reflexivity].
        split; [reflexivity |]. split; [reflexivity | lia].
Qed.

(** *** The voltage code *)

Lemma scaled_in_range (v : FP.float) :
  FP.f32_valid v = true -> VoltageSpec.in_interval v ->
  let code := FP.round_half_up (FP.value (FP.f32_mul v FAU201Device.f32_1000)) in
  FP.trunc (FAU201Device.scaled v) = Some code /\ 0 <= code <= 4095.
Proof.
  intros Hvalid Hin code.
  assert (Hnan : FP.is_nan v = false)
    by (destruct Hin as [Hf _]; destruct v; try discriminate; reflexivity).
  apply (out_of_range_iff v Hvalid Hnan) in Hin.
  destruct v as [s | s | | s m e]; try discriminate.
  - destruct s; vm_compute; repeat split; discriminate.
  - destruct s; discriminate Hin.
  - destruct s; [discriminate Hin |].
    unfold code, FAU201Device.scaled.
    destruct (product_in_range m e Hvalid Hin) as [Hz | (mp & ep & Hp & Hmp & Hep & Hle)].
    + rewrite Hz. vm_compute. repeat split; discriminate.
    + rewrite Hp.
      destruct (promotion_exact mp ep Hmp ltac:(lia)) as (mz & ez & c & Hz & Hez & Hmz & Hc & Hb).
      rewrite Hz.
      assert (Hlez : Zpos mz <= 4095 * 2 ^ (- ez)).
      { rewrite Hmz. replace (- ez) with (- ep + (ep - ez)) by lia.
        rewrite pow2_split by lia.
        assert (0 < 2 ^ (ep - ez)) by (apply Z.pow_pos_nonneg; lia). nia. }
      rewrite (add_half_trunc mz ez c Hc Hb ltac:(lia) Hlez).
      rewrite round_half_up_dyadic by lia.
      assert (Hsame : rhu_dyadic (Zpos mz) ez = rhu_dyadic (Zpos mp) ep).
      { rewrite Hmz. replace ez with (ep - (ep - ez)) at 2 by lia.
        apply rhu_dyadic_scale; lia. }
      rewrite Hsame. split; [reflexivity |].
      apply rhu_dyadic_bound; lia.
Qed.

(* ===================================================================== *)
(** ** setVoltage: the two branches *)
(* ===================================================================== *)

Section SetVoltage.

Context {B : Type} `{CP2130.Bridge B}.
Variable cast_undef : spec_float -> Z.

Import CP2130.

(** The rejecting branch: no call is issued, the device is untouched, the
    count is stepped once and the message is appended. *)
Lemma setVoltage_rejecting_branch (voltage : FP.float) (s : Session B) :
  FAU201Device.out_of_range voltage = true ->
  exec (FAU201Device.setVoltage cast_undef voltage) s =
  {| dev := dev s;
     err := {| errcnt := MachInt.int_incr (errcnt (err s));
               errstr := (errstr (err s) ++ VoltageSpec.message)%string |};
     log := log s |}.
Proof.
  intros Hout. unfold FAU201Device.setVoltage. rewrite Hout. reflexivity.
Qed.

(** The writing branch: chip select, one write of the three-byte command,
    the wait, chip select released; the accumulator is the one the three
    bridge calls leave. *)
Lemma setVoltage_writing_branch (voltage : FP.float) (s : Session B) :
  FAU201Device.out_of_range voltage = false ->
  let set := FAU201Device.set_command
               (FAU201Device.voltageCode cast_undef voltage) in
  let s' := exec (FAU201Device.setVoltage cast_undef voltage) s in
  log s' = log s ++ [ EvSelectCS 0; EvSpiWrite set 0x01;
                      EvUsleep 100; EvDisableCS 0 ] /\
  (dev s', err s') =
    thread [ selectCS 0; spiWrite set 0x01; disableCS 0 ] (dev s, err s).
Proof.
  intros Hin set s'. subst set s'.
  unfold FAU201Device.setVoltage. rewrite Hin. run_session. split.
  - repeat rewrite <- app_assoc. reflexivity.
  - unfold thread. cbn [fold_left fst snd]. symmetry. apply surjective_pairing.
Qed.

Lemma high_byte_fits (code : Z) :
  0 <= code <= 4095 -> MachInt.to_uint8 (Z.shiftr code 4) = Z.shiftr code 4.
Proof.
  intros Hc. unfold MachInt.to_uint8. rewrite Z.shiftr_div_pow2 by lia.
  change (2 ^ 4) with 16. apply Z.mod_small. split.
  - apply Z.div_pos; lia.
  - apply Z.div_lt_upper_bound; lia.
Qed.

(** For a voltage in the interval the conversion to [uint16_t] is defined:
    the code is the single-precision product rounded to the nearest
    integer, and it fits in 12 bits. *)
Lemma voltageCode_in_range (voltage : FP.float) :
  FP.f32_valid voltage = true -> VoltageSpec.in_interval voltage ->
  let code := FP.round_half_up
                (FP.value (FP.f32_mul voltage FAU201Device.f32_1000)) in
  FAU201Device.voltageCode cast_undef voltage = code /\ 0 <= code <= 4095.
Proof.
  intros Hvalid Hin code.
  destruct (scaled_in_range voltage Hvalid Hin) as [Htrunc Hcode].
  fold code in Htrunc, Hcode. split; [| exact Hcode].
  unfold FAU201Device.voltageCode, FP.to_uint16. rewrite Htrunc.
  destruct (Z.leb_spec 0 code); [| lia].
  destruct (Z.leb_spec code 65535); [reflexivity | lia].
Qed.

(** The run of [setVoltage] on a voltage in the interval, with the code
    written as the rounded single-precision product. *)
Lemma setVoltage_in_range_run (voltage : FP.float)
    (s : Session B) :
  FP.f32_valid voltage = true -> VoltageSpec.in_interval voltage ->
  let code := FP.round_half_up
                (FP.value (FP.f32_mul voltage FAU201Device.f32_1000)) in
  let set := [0x30; Z.shiftr code 4; Z.shiftl code 4 mod 256] in
  let s' := exec (FAU201Device.setVoltage cast_undef voltage) s in
  0 <= code <= 4095 /\
  log s' = log s ++ [ EvSelectCS 0; EvSpiWrite set 0x01;
                      EvUsleep 100; EvDisableCS 0 ] /\
  (dev s', err s') =
    thread [ selectCS 0; spiWrite set 0x01; disableCS 0 ] (dev s, err s).
Proof.
  intros Hvalid Hin code set s'.
  destruct (voltageCode_in_range voltage Hvalid Hin) as [Hcode Hbound].
  fold code in Hcode, Hbound. split; [exact Hbound |].
  assert (Haccept : FAU201Device.out_of_range voltage = false).
  { apply out_of_range_iff; [exact Hvalid | | exact Hin].
    destruct Hin as [Hf _]. destruct voltage; try discriminate; reflexivity. }
  pose proof (setVoltage_writing_branch voltage s Haccept) as Hrun.
  cbv zeta in Hrun. rewrite Hcode in Hrun.
  unfold FAU201Device.set_command in Hrun.
  rewrite (high_byte_fits code Hbound) in Hrun. exact Hrun.
Qed.

(** X1. Every valid [float] other than NaN that lies outside [0, 4.095] is
    rejected before any call is issued: the device and the log are
    untouched, the count goes up by one and the message is appended. *)
Lemma setVoltage_rejects_outside (voltage : FP.float) (s : Session B) :
  FP.f32_valid voltage = true -> FP.is_nan voltage = false ->
  ~ VoltageSpec.in_interval voltage ->
  MachInt.INT_MIN <= errcnt (err s) < MachInt.INT_MAX ->
  let s' := exec (FAU201Device.setVoltage cast_undef voltage) s in
  log s' = log s /\ dev s' = dev s /\
  errcnt (err s') = errcnt (err s) + 1 /\
  errstr (err s') = (errstr (err s) ++ VoltageSpec.message)%string.
Proof.
  intros Hvalid Hnan Hout Hcnt s'.
  assert (Hrej : FAU201Device.out_of_range voltage = true).
  { destruct (FAU201Device.out_of_range voltage) eqn:Hr; [reflexivity |].
    elim Hout. now apply out_of_range_iff. }
  subst s'. rewrite (setVoltage_rejecting_branch voltage s Hrej).
  cbn [log dev err errcnt errstr].
  rewrite int_incr_below_max by exact Hcnt. repeat split.
Qed.

(** C9. A NaN passes the range check of [setVoltage]: [voltage <
    VOLTAGE_MIN] and [voltage > VOLTAGE_MAX] are both false.  So NaN, which
    is no member of [0, 4.095], does not reach the error branch:
    [setVoltage] records no error of its own and goes through chip select,
    one SPI write whose voltage code is whatever the target makes of the
    conversion, the wait, and chip select released. *)
Theorem setVoltage_nan_not_rejected (s : Session B) :
  FP.f_lt S754_nan FAU201Device.VOLTAGE_MIN = false /\
  FP.f_gt S754_nan FAU201Device.VOLTAGE_MAX = false /\
  ~ VoltageSpec.in_interval S754_nan /\
  let set := FAU201Device.set_command (MachInt.to_uint16 (cast_undef S754_nan)) in
  let s' := exec (FAU201Device.setVoltage cast_undef S754_nan) s in
  log s' = log s ++ [ EvSelectCS 0; EvSpiWrite set 0x01;
                      EvUsleep 100; EvDisableCS 0 ] /\
  (dev s', err s') =
    thread [ selectCS 0; spiWrite set 0x01; disableCS 0 ] (dev s, err s).
Proof.
  split; [reflexivity |]. split; [reflexivity |]. split.
  - intros [Hfin _]. discriminate Hfin.
  - exact (setVoltage_writing_branch S754_nan s eq_refl).
Qed.

End SetVoltage.

(** The limits of the interval, and a value next to a rounding boundary: the
  [float] nearest to 1.1135 gives code 1114, because the [float] product is
  exactly 1113.5. *)
Example voltageCode_samples :
  FAU201Device.voltageCode (fun _ => 0) (S754_zero false) = 0 /\
  FAU201Device.voltageCode (fun _ => 0) FAU201Device.VOLTAGE_MAX = 4095 /\
  FAU201Device.voltageCode (fun _ => 0) (S754_finite false 9340715 (-23)) = 1114.
Proof. vm_compute. repeat split. Qed.

(** C2, at the input where the code departs from it.  On an opened device a
  NaN voltage, which lies outside [0, 4.095], is not rejected: four calls
  reach the hardware, among them one SPI write, the error count stays 0 and
  no message is recorded. *)
Theorem setVoltage_nan_on_open_device (cast_undef : spec_float -> Z) :
  let s0 := exec (FAU201Device.open EmptyString)
                 (SimBridge.start [SimBridge.unit1]) in
  let s := exec (FAU201Device.setVoltage cast_undef S754_nan) s0 in
  ~ VoltageSpec.in_interval S754_nan /\
  log s = log s0 ++
          [ CP2130.EvSelectCS 0;
            CP2130.EvSpiWrite
              (FAU201Device.set_command (MachInt.to_uint16 (cast_undef S754_nan)))
              0x01;
            CP2130.EvUsleep 100;
            CP2130.EvDisableCS 0 ] /\
  errcnt (err s) = 0 /\ errstr (err s) = EmptyString.
Proof.
  cbv zeta. split.
  - intros [Hfin _]. discriminate Hfin.
  - repeat split.
Qed.

(* ===================================================================== *)
(** ** The accumulator is append-only *)
(* ===================================================================== *)

Section AppendOnly.

Context {B : Type} `{CP2130.Bridge B}.
Variable cast_undef : spec_float -> Z.
Hypothesis bridge_disciplined : CP2130.Disciplined.

Lemma call_extends ev (f : B -> ErrAcc -> B * ErrAcc) (s : Session B) :
  (forall b a, acc_extends a (snd (f b a))) ->
  acc_extends (err s) (err (exec (call ev f) s)).
Proof. intros Hf. rewrite exec_call. apply Hf. Qed.

Lemma query_extends {A : Type} ev (f : B -> ErrAcc -> A * (B * ErrAcc))
    (s : Session B) :
  (forall b a, acc_extends a (snd (snd (f b a)))) ->
  acc_extends (err s) (err (exec (query ev f) s)).
Proof. intros Hf. rewrite exec_query. apply Hf. Qed.

Lemma setup_extends (s : Session B) :
  acc_extends (err s) (err (exec FAU201Device.setup s)).
Proof.
  destruct bridge_disciplined.
  unfold FAU201Device.setup. unfold_calls. rewrite !exec_bind.
  repeat first
    [ rewrite exec_usleep; cbn [err]
    | eapply acc_extends_trans; [| apply call_extends; auto] ].
  apply acc_extends_refl.
Qed.

Lemma setVoltage_extends (voltage : FP.float) (s : Session B) :
  MachInt.INT_MIN <= errcnt (err s) < MachInt.INT_MAX ->
  acc_extends (err s) (err (exec (FAU201Device.setVoltage cast_undef voltage) s)).
Proof.
  intros Hcnt. destruct bridge_disciplined.
  destruct (FAU201Device.out_of_range voltage) eqn:Hrange.
  - rewrite setVoltage_rejecting_branch by exact Hrange. cbn [err].
    split; cbn [errcnt errstr].
    + rewrite int_incr_below_max by exact Hcnt. lia.
    + now exists VoltageSpec.message.
  - unfold FAU201Device.setVoltage. unfold_calls. rewrite Hrange, !exec_bind.
    repeat first
      [ rewrite exec_usleep; cbn [err]
      | eapply acc_extends_trans; [| apply call_extends; auto] ].
    apply acc_extends_refl.
Qed.

(** C10. Every member function that takes the accumulator leaves it
    extended: the count is not lower than before and the text recorded
    before is a prefix of the text afterwards.  This holds on every bridge
    whose own calls keep that discipline, for a count that is an [int]
    below [INT_MAX] (the range in which [++errcnt] is defined). *)
Theorem accumulator_append_only (op : AccOp) (s : Session B) :
  MachInt.INT_MIN <= errcnt (err s) < MachInt.INT_MAX ->
  acc_extends (err s) (err (run_op cast_undef op s)).
Proof.
  intros Hcnt. pose proof bridge_disciplined as D.
  destruct D as [? ? ? ? ? ? ? ? ? ? ? Hlist].
  destruct op; cbn [run_op].
  - apply query_extends; auto.
  - unfold FAU201Device.getHardwareRevision. rewrite exec_bind.
    unfold ret, exec at 1. cbn [snd]. apply query_extends; auto.
  - apply query_extends; auto.
  - apply query_extends; auto.
  - apply query_extends; auto.
  - apply query_extends; auto.
  - apply call_extends; auto.
  - apply setup_extends.
  - apply setVoltage_extends, Hcnt.
  - unfold exec, FAU201Device.listDevices, cp2130_.listDevices.
    specialize (Hlist FAU201Device.VID FAU201Device.PID (dev s) (err s)).
    destruct (CP2130.listDevices _ _ _ _); exact Hlist.
Qed.

End AppendOnly.

Lemma report_extends (name : string) (a : ErrAcc) :
  acc_extends a (SimBridge.report name a).
Proof.
  split; cbn [SimBridge.report errcnt errstr]; [lia |].
  eexists. reflexivity.
Qed.

Lemma soft_extends (name : string) (st : SimBridge.State) (a : ErrAcc) :
  acc_extends a (snd (SimBridge.soft name st a)).
Proof.
  unfold SimBridge.soft. destruct (SimBridge.usable st); cbn [snd];
    [apply acc_extends_refl | apply report_extends].
Qed.

Lemma soft_get_extends {A : Type} (name : string)
    (get : SimBridge.State -> option A) (dflt : A) (st : SimBridge.State)
    (a : ErrAcc) :
  acc_extends a (snd (snd (SimBridge.soft_get name get dflt st a))).
Proof.
  unfold SimBridge.soft_get. destruct (SimBridge.usable st);
    [destruct (get st) |]; cbn [snd];
    first [apply acc_extends_refl | apply report_extends].
Qed.

(** The simulated bridge keeps the discipline. *)
Lemma sim_bridge_disciplined : CP2130.Disciplined (B := SimBridge.State).
Proof.
  constructor; intros; cbn;
    try apply soft_extends; try apply soft_get_extends.
  unfold SimBridge.sim_listDevices. destruct (SimBridge.transport_ok b); cbn [snd];
    [apply acc_extends_refl | apply report_extends].
Qed.

(** A voltage of plus infinity on a device that was never opened. *)
Lemma accumulator_append_only_witness :
  let s := SimBridge.start [SimBridge.unit1] in
  MachInt.INT_MIN <= errcnt (err s) < MachInt.INT_MAX /\
  acc_extends (err s)
    (err (run_op (fun _ => 0) (OpSetVoltage (S754_infinity false)) s)).
Proof.
  intros s.
  assert (Hcnt : MachInt.INT_MIN <= errcnt (err s) < MachInt.INT_MAX)
    by (vm_compute; split; [discriminate | reflexivity]).
  split; [exact Hcnt |].
  exact (accumulator_append_only (fun _ => 0) sim_bridge_disciplined
           (OpSetVoltage (S754_infinity false)) s Hcnt).
Defined.

(** C10 without a bound on the count does not hold.  The simulated bridge
  keeps the accumulator discipline; with the count at [INT_MAX] the
  rejecting branch of [setVoltage] (here for -0.1) steps it to
  -2147483648, which is a decrease. *)
Lemma accumulator_count_wraps_at_int_max :
  let s0 := SimBridge.start [SimBridge.unit1] in
  let s := {| dev := dev s0;
              err := {| errcnt := MachInt.INT_MAX; errstr := EmptyString |};
              log := log s0 |} in
  let op := OpSetVoltage (S754_finite true 13421773 (-27)) in
  CP2130.Disciplined (B := SimBridge.State) /\
  errcnt (err (run_op (fun _ => 0) op s)) = -2147483648 /\
  ~ acc_extends (err s) (err (run_op (fun _ => 0) op s)).
Proof.
  intros s0 s op.
  split; [exact sim_bridge_disciplined |].
  split; [vm_compute; reflexivity |].
  intros [Hcnt _]. vm_compute in Hcnt. apply Hcnt. reflexivity.
Qed.

(* ===================================================================== *)
(** ** Further properties of setVoltage *)
(* ===================================================================== *)

(** X2. On every valid [float] other than NaN, the guard of [setVoltage]
  rejects exactly the values outside [0, 4.095]: although [VOLTAGE_MAX] is
  the [float] just below 4.095, no [float] in the interval is rejected and
  none outside it is accepted. *)
Theorem range_check_decides_interval (v : FP.float) :
  FP.f32_valid v = true -> FP.is_nan v = false ->
  (FAU201Device.out_of_range v = true <-> ~ VoltageSpec.in_interval v).
Proof.
  intros Hvalid Hnan. pose proof (out_of_range_iff v Hvalid Hnan) as Hiff.
  destruct (FAU201Device.out_of_range v); split.
  - intros _ Hin. apply Hiff in Hin. discriminate.
  - reflexivity.
  - discriminate.
  - intros Hout. elim Hout. now apply Hiff.
Qed.

(** The [float] next above [VOLTAGE_MAX] is rejected. *)
Lemma range_check_decides_interval_witness :
  let v := S754_finite false 8587838 (-21) in
  FP.f32_valid v = true /\ FP.is_nan v = false /\
  FAU201Device.out_of_range v = true /\ ~ VoltageSpec.in_interval v.
Proof.
  intros v.
  assert (Hvalid : FP.f32_valid v = true) by reflexivity.
  assert (Hnan : FP.is_nan v = false) by reflexivity.
  split; [exact Hvalid |]. split; [exact Hnan |]. split; [reflexivity |].
  apply (range_check_decides_interval v Hvalid Hnan). reflexivity.
Defined.

Section SetVoltageMore.

Context {B : Type} `{CP2130.Bridge B}.

Import CP2130.

(** X3. Only a NaN can reach the conversion that C++ leaves undefined: for
  every valid [float] other than NaN the session [setVoltage] leaves does
  not depend on what the target makes of an out-of-range conversion. *)
Theorem setVoltage_conversion_defined (u1 u2 : spec_float -> Z)
    (voltage : FP.float) (s : Session B) :
  FP.f32_valid voltage = true -> FP.is_nan voltage = false ->
  exec (FAU201Device.setVoltage u1 voltage) s =
  exec (FAU201Device.setVoltage u2 voltage) s.
Proof.
  intros Hvalid Hnan.
  destruct (FAU201Device.out_of_range voltage) eqn:Hrange.
  - now rewrite !setVoltage_rejecting_branch by exact Hrange.
  - assert (Hin : VoltageSpec.in_interval voltage)
      by (now apply out_of_range_iff).
    destruct (voltageCode_in_range u1 voltage Hvalid Hin) as [H1 _].
    destruct (voltageCode_in_range u2 voltage Hvalid Hin) as [H2 _].
    unfold FAU201Device.setVoltage. rewrite Hrange, H1, H2. reflexivity.
Qed.

(** X7. Whatever the voltage code, the command [setVoltage] builds is three
  bytes long: the opcode 0x30 and two values that fit in a byte, the second
  with its four low bits clear. *)
Theorem set_command_format (code : Z) :
  exists b1 b2,
    FAU201Device.set_command code = [0x30; b1; b2] /\
    0 <= b1 <= 255 /\ 0 <= b2 <= 255 /\ b2 mod 16 = 0.
Proof.
  unfold FAU201Device.set_command, MachInt.to_uint8.
  exists (Z.shiftr code 4 mod 256), (Z.shiftl code 4 mod 256).
  split; [reflexivity |].
  pose proof (Z.mod_pos_bound (Z.shiftr code 4) 256 ltac:(lia)).
  pose proof (Z.mod_pos_bound (Z.shiftl code 4) 256 ltac:(lia)).
  split; [lia |]. split; [lia |].
  rewrite Z.shiftl_mul_pow2 by lia. change (2 ^ 4) with 16.
  change 256 with (16 * 16).
  rewrite (Z.mul_comm code 16), Zmult_mod_distr_l.
  rewrite Z.mul_comm. apply Z.mod_mul. lia.
Qed.

(** X9. For every [float] voltage in [0, 4.095], the two data bytes of the
  command put on the wire re-assemble, as [(byte0 << 4) | (byte1 >> 4)], to
  the voltage code: the product [v * 1000] rounded to the nearest integer. *)
Theorem wire_bytes_carry_the_code (cast_undef : spec_float -> Z)
    (voltage : FP.float) :
  FP.f32_valid voltage = true -> VoltageSpec.in_interval voltage ->
  DacWord.unpack (DacWord.wire_bytes (FAU201Device.voltageCode cast_undef voltage)) =
  FP.round_half_up (FP.value (FP.f32_mul voltage FAU201Device.f32_1000)).
Proof.
  intros Hvalid Hin.
  destruct (voltageCode_in_range cast_undef voltage Hvalid Hin) as [Hcode Hb].
  rewrite Hcode.
  set (code := FP.round_half_up (FP.value (FP.f32_mul voltage FAU201Device.f32_1000))) in *.
  assert (Hok : DacWord.roundtrip_ok code = true).
  { apply (forallb_range _ 4096 roundtrip_all_codes). lia. }
  unfold DacWord.roundtrip_ok in Hok.
  apply andb_prop in Hok as [Hok Hrt]. apply andb_prop in Hok as [H0 H1].
  apply Z.eqb_eq in H0, H1, Hrt.
  rewrite <- Hrt at 2. f_equal.
  rewrite (surjective_pairing (DacWord.wire_bytes code)),
    (surjective_pairing (DacWord.pack code)). now rewrite H0, H1.
Qed.

End SetVoltageMore.

Lemma setVoltage_conversion_defined_witness :
  let v := S754_finite false 8388608 (-22) in
  let s := SimBridge.start [SimBridge.unit1] in
  FP.f32_valid v = true /\ FP.is_nan v = false /\
  exec (FAU201Device.setVoltage (fun _ => 0) v) s =
  exec (FAU201Device.setVoltage (fun _ => 65535) v) s.
Proof.
  intros v s. split; [reflexivity |]. split; [reflexivity |].
  apply (setVoltage_conversion_defined (fun _ => 0) (fun _ => 65535) v s);
    reflexivity.
Defined.

Lemma wire_bytes_carry_the_code_witness :
  let v := S754_finite false 8388608 (-22) in
  FP.f32_valid v = true /\ VoltageSpec.in_interval v /\
  DacWord.unpack (DacWord.wire_bytes (FAU201Device.voltageCode (fun _ => 0) v)) = 2000.
Proof.
  intros v.
  assert (Hvalid : FP.f32_valid v = true) by reflexivity.
  assert (Hin : VoltageSpec.in_interval v).
  { split; [reflexivity |]. split; vm_compute; discriminate. }
  split; [exact Hvalid |]. split; [exact Hin |].
  rewrite (wire_bytes_carry_the_code (fun _ => 0) v Hvalid Hin). reflexivity.
Defined.

(** A rejected voltage: 4.2 volts on a device that was never opened. *)
Lemma setVoltage_rejects_outside_witness :
  let v := S754_finite false 8808038 (-21) in
  let s := SimBridge.start [SimBridge.unit1] in
  FP.f32_valid v = true /\ FP.is_nan v = false /\
  ~ VoltageSpec.in_interval v /\
  MachInt.INT_MIN <= errcnt (err s) < MachInt.INT_MAX /\
  log (exec (FAU201Device.setVoltage (fun _ => 0) v) s) = log s /\
  errcnt (err (exec (FAU201Device.setVoltage (fun _ => 0) v) s)) = 1.
Proof.
  intros v s.
  assert (Hvalid : FP.f32_valid v = true) by reflexivity.
  assert (Hnan : FP.is_nan v = false) by reflexivity.
  assert (Hout : ~ VoltageSpec.in_interval v).
  { intros (_ & _ & Hle). vm_compute in Hle. now apply Hle. }
  assert (Hcnt : MachInt.INT_MIN <= errcnt (err s) < MachInt.INT_MAX)
    by (vm_compute; split; [discriminate | reflexivity]).
  destruct (setVoltage_rejects_outside (fun _ => 0) v s Hvalid Hnan Hout Hcnt)
    as (Hlog & _ & Herr & _).
  split; [exact Hvalid |]. split; [exact Hnan |]. split; [exact Hout |].
  split; [exact Hcnt |]. split; [exact Hlog |].
  rewrite Herr. reflexivity.
Defined.

(* ===================================================================== *)
(** ** Millivolt steps *)
(* ===================================================================== *)

Lemma millivolt_all_steps :
  forallb Millivolt.step_ok (map Z.of_nat (seq 0 4096)) = true.
Proof. vm_compute. reflexivity. Qed.

(** X4. Every 12-bit code is reached by its own millivolt value: for each
  [n] from 0 to 4095, passing [n / 1000.0] or [n / 1000.0f] to [setVoltage]
  is accepted by the guard and gives the voltage code [n]. *)
Theorem millivolt_steps_give_their_code (cast_undef : spec_float -> Z) (n : Z) :
  0 <= n <= 4095 ->
  FAU201Device.out_of_range (Millivolt.of_double n) = false /\
  FAU201Device.out_of_range (Millivolt.of_float n) = false /\
  FAU201Device.voltageCode cast_undef (Millivolt.of_double n) = n /\
  FAU201Device.voltageCode cast_undef (Millivolt.of_float n) = n.
Proof.
  intros Hn.
  assert (Hok : Millivolt.step_ok n = true).
  { apply (forallb_range _ 4096 millivolt_all_steps). lia. }
  unfold Millivolt.step_ok in Hok.
  repeat (apply andb_prop in Hok as [Hok ?]).
  repeat match goal with
         | Hx : negb _ = true |- _ => apply negb_true_iff in Hx
         | Hx : (_ =? _) = true |- _ => apply Z.eqb_eq in Hx
         end.
  assert (Hd : VoltageSpec.in_interval (Millivolt.of_double n))
    by (now apply out_of_range_iff).
  assert (Hf : VoltageSpec.in_interval (Millivolt.of_float n))
    by (now apply out_of_range_iff).
  destruct (voltageCode_in_range cast_undef _ Hok Hd) as [Hd1 _].
  destruct (voltageCode_in_range (fun _ => 0) _ Hok Hd) as [Hd2 _].
  destruct (voltageCode_in_range cast_undef (Millivolt.of_float n)) as [Hf1 _];
    [assumption | assumption |].
  destruct (voltageCode_in_range (fun _ => 0) (Millivolt.of_float n)) as [Hf2 _];
    [assumption | assumption |].
  repeat split; try assumption; congruence.
Qed.

Lemma millivolt_steps_give_their_code_witness :
  0 <= 2500 <= 4095 /\
  FAU201Device.voltageCode (fun _ => 0) (Millivolt.of_double 2500) = 2500.
Proof.
  split; [lia |].
  apply (millivolt_steps_give_their_code (fun _ => 0) 2500). lia.
Defined.

(* ===================================================================== *)
(** ** The wire protocol over sequences of calls *)
(* ===================================================================== *)

Lemma accepts_app (p : Protocol.Phase) (l1 l2 : list CP2130.Event) :
  Protocol.accepts p (l1 ++ l2) =
  match Protocol.accepts p l1 with
  | Some p' => Protocol.accepts p' l2
  | None => None
  end.
Proof.
  revert p. induction l1 as [| ev l1 IH]; intros p; cbn [app Protocol.accepts].
  - reflexivity.
  - destruct (Protocol.step p ev); [apply IH | reflexivity].
Qed.

Section ProtocolInvariant.

Context {B : Type} `{CP2130.Bridge B}.
Variable cast_undef : spec_float -> Z.

Import CP2130.

Lemma run_op_keeps_protocol (op : AccOp) (s : Session B) :
  Protocol.accepts Protocol.Idle (log s) = Some Protocol.Idle ->
  Protocol.accepts Protocol.Idle (log (run_op cast_undef op s)) =
  Some Protocol.Idle.
Proof.
  intros Hs. destruct op; cbn [run_op].
  - unfold FAU201Device.getCP2130SiliconVersion. run_session.
    rewrite accepts_app, Hs. reflexivity.
  - unfold FAU201Device.getHardwareRevision, FAU201Device.getUSBConfig.
    run_session. unfold ret, exec. cbn [snd log].
    rewrite accepts_app, Hs. reflexivity.
  - unfold FAU201Device.getManufacturerDesc. run_session.
    rewrite accepts_app, Hs. reflexivity.
  - unfold FAU201Device.getProductDesc. run_session.
    rewrite accepts_app, Hs. reflexivity.
  - unfold FAU201Device.getSerialDesc. run_session.
    rewrite accepts_app, Hs. reflexivity.
  - unfold FAU201Device.getUSBConfig. run_session.
    rewrite accepts_app, Hs. reflexivity.
  - unfold FAU201Device.reset. run_session.
    rewrite accepts_app, Hs. reflexivity.
  - unfold FAU201Device.setup. run_session.
    repeat rewrite <- app_assoc. cbn [app].
    rewrite accepts_app, Hs. reflexivity.
  - destruct (FAU201Device.out_of_range voltage) eqn:Hrange.
    + now rewrite setVoltage_rejecting_branch by exact Hrange.
    + destruct (setVoltage_writing_branch cast_undef voltage s Hrange) as [Hlog _].
      rewrite Hlog, accepts_app, Hs. reflexivity.
  - unfold exec, FAU201Device.listDevices, cp2130_.listDevices.
    destruct (CP2130.listDevices _ _ _ _). cbn [snd log].
    rewrite accepts_app, Hs. reflexivity.
Qed.

Lemma run_member_keeps_protocol (m : Member) (s : Session B) :
  Protocol.accepts Protocol.Idle (log s) = Some Protocol.Idle ->
  Protocol.accepts Protocol.Idle (log (run_member cast_undef m s)) =
  Some Protocol.Idle.
Proof.
  intros Hs. destruct m; cbn [run_member].
  - exact Hs.
  - exact Hs.
  - unfold exec, FAU201Device.close, cp2130_.close. cbn [snd log].
    rewrite accepts_app, Hs. reflexivity.
  - unfold exec. rewrite open_delegates. cbn [snd log].
    rewrite accepts_app, Hs. reflexivity.
  - now apply run_op_keeps_protocol.
Qed.

(** X8. Whatever sequence of member functions is called, with whatever
  arguments and on whatever bridge, the calls that reach the bridge keep to
  the protocol: an SPI write only ever happens with chip select 0 asserted,
  is three bytes long and goes to endpoint 0x01; it is followed by the wait
  of 100 microseconds and then by the release of chip select 0; nothing
  else is issued while the chip select is asserted, and after every call
  the chip select is released. *)
Theorem member_calls_keep_protocol (ms : list Member) (s : Session B) :
  Protocol.accepts Protocol.Idle (log s) = Some Protocol.Idle ->
  Protocol.accepts Protocol.Idle (log (run_members cast_undef ms s)) =
  Some Protocol.Idle.
Proof.
  revert s. induction ms as [| m ms IH]; intros s Hs; cbn [run_members fold_left].
  - exact Hs.
  - apply IH. now apply run_member_keeps_protocol.
Qed.

End ProtocolInvariant.

(** A session with failures and a NaN in it: setup before open, open,
  setup, an out-of-range voltage, a NaN, a good voltage, close. *)
Lemma member_calls_keep_protocol_witness :
  let s := SimBridge.start [SimBridge.unit1] in
  let ms := [ MAcc OpSetup; MOpen EmptyString; MAcc OpSetup;
              MAcc (OpSetVoltage (S754_infinity false));
              MAcc (OpSetVoltage S754_nan);
              MAcc (OpSetVoltage (S754_finite false 8388608 (-22)));
              MClose ] in
  Protocol.accepts Protocol.Idle (log s) = Some Protocol.Idle /\
  Protocol.accepts Protocol.Idle (log (run_members (fun _ => 0) ms s)) =
  Some Protocol.Idle.
Proof.
  intros s ms. split; [reflexivity |].
  apply (member_calls_keep_protocol (fun _ => 0) ms s). reflexivity.
Defined.

(* ===================================================================== *)
(** ** Further properties of hardwareRevision *)
(* ===================================================================== *)

Lemma int_to_string_nonempty (n : Z) :
  FAU201Device.int_to_string n <> EmptyString.
Proof.
  unfold FAU201Device.int_to_string.
  destruct (Z.to_int n) as [[] | []]; discriminate.
Qed.

Lemma string_app_nil_l (x y : string) :
  (x ++ y)%string = EmptyString -> x = EmptyString /\ y = EmptyString.
Proof. destruct x; cbn; [tauto | discriminate]. Qed.

(** X11. [hardwareRevision] returns the empty string exactly when the major
  release is outside 1..27 and the minor release is 0. *)
Theorem hardwareRevision_empty_iff (config : CP2130.USBConfig) :
  FAU201Device.hardwareRevision config = EmptyString <->
  (CP2130.majrel config < 1 \/ 27 < CP2130.majrel config) /\
  CP2130.minrel config = 0.
Proof.
  destruct config as [maj mnr].
  unfold FAU201Device.hardwareRevision. cbn [CP2130.majrel CP2130.minrel].
  rewrite (Z.gtb_ltb maj 1).
  destruct (Z.ltb_spec 1 maj) as [Hlo | Hlo];
    destruct (Z.leb_spec maj 27) as [Hhi | Hhi]; cbn [andb].
  - split; [| lia].
    destruct ((maj =? 1) || negb (mnr =? 0)); cbn; discriminate.
  - destruct (Z.eqb_spec maj 1); [lia |]. cbn [orb].
    destruct (Z.eqb_spec mnr 0) as [Hz | Hnz]; cbn [negb app].
    + split; [intros _; lia | reflexivity].
    + split; [| lia]. intros Habs. now apply int_to_string_nonempty in Habs.
  - destruct (Z.eqb_spec maj 1) as [H1 | H1]; cbn [orb].
    + split; [| lia]. intros Habs. now apply int_to_string_nonempty in Habs.
    + destruct (Z.eqb_spec mnr 0) as [Hz | Hnz]; cbn [negb app].
      * split; [intros _; lia | reflexivity].
      * split; [| lia]. intros Habs. now apply int_to_string_nonempty in Habs.
  - lia.
Qed.

Lemma revision_roundtrip_all :
  forallb RevisionDecode.roundtrip_ok RevisionDecode.domain = true.
Proof. vm_compute. reflexivity. Qed.

Lemma revision_decode_encode (maj mnr : Z) :
  1 <= maj <= 27 -> 0 <= mnr <= 255 ->
  RevisionDecode.decode
    (FAU201Device.hardwareRevision {| CP2130.majrel := maj; CP2130.minrel := mnr |})
  = (maj, mnr).
Proof.
  intros Hmaj Hmnr.
  pose proof revision_roundtrip_all as Hall. rewrite forallb_forall in Hall.
  assert (Hin : In (maj, mnr) RevisionDecode.domain).
  { unfold RevisionDecode.domain. apply in_prod.
    - apply in_map_iff. exists (Z.to_nat maj). split; [lia |]. apply in_seq. lia.
    - apply in_map_iff. exists (Z.to_nat mnr). split; [lia |]. apply in_seq. lia. }
  specialize (Hall _ Hin). unfold RevisionDecode.roundtrip_ok in Hall.
  cbn [fst snd] in Hall. apply andb_prop in Hall as [Ha Hb].
  apply Z.eqb_eq in Ha, Hb.
  rewrite (surjective_pairing (RevisionDecode.decode _)). now rewrite Ha, Hb.
Qed.

(** X10. For major releases 1..27 and minor releases 0..255 the revision
  string identifies the release: two configurations with the same string
  have the same major and minor release numbers. *)
Theorem hardwareRevision_injective (c1 c2 : CP2130.USBConfig) :
  1 <= CP2130.majrel c1 <= 27 -> 0 <= CP2130.minrel c1 <= 255 ->
  1 <= CP2130.majrel c2 <= 27 -> 0 <= CP2130.minrel c2 <= 255 ->
  FAU201Device.hardwareRevision c1 = FAU201Device.hardwareRevision c2 ->
  c1 = c2.
Proof.
  destruct c1 as [maj1 mnr1], c2 as [maj2 mnr2]. cbn [CP2130.majrel CP2130.minrel].
  intros Hmaj1 Hmnr1 Hmaj2 Hmnr2 Heq.
  pose proof (revision_decode_encode maj1 mnr1 Hmaj1 Hmnr1) as H1.
  pose proof (revision_decode_encode maj2 mnr2 Hmaj2 Hmnr2) as H2.
  rewrite Heq, H2 in H1. congruence.
Qed.

Lemma hardwareRevision_injective_witness :
  let c1 := {| CP2130.majrel := 2; CP2130.minrel := 5 |} in
  let c2 := {| CP2130.majrel := 2; CP2130.minrel := 5 |} in
  FAU201Device.hardwareRevision c1 = FAU201Device.hardwareRevision c2 /\ c1 = c2.
Proof.
  intros c1 c2.
  assert (Heq : FAU201Device.hardwareRevision c1 = FAU201Device.hardwareRevision c2)
    by (vm_compute; reflexivity).
  split; [exact Heq |].
  apply (hardwareRevision_injective c1 c2); cbn; try lia. exact Heq.
Defined.

(* ===================================================================== *)
(** ** Ties to even, and the single-precision product once more *)
(* ===================================================================== *)

Lemma round_nearest_even_rne (x k : Z) (r : shr_record) :
  0 <= k -> shr_inv x k r ->
  NearestEven.rne x k (round_nearest_even (shr_m r) (loc_of_shr_record r)).
Proof.
  intros Hk Hinv. split; [now apply round_nearest_even_spec |].
  destruct Hinv as [Hm (rho & tau & Hx & Hrho & Htau & Htb & Hs)].
  destruct r as [m rb sb]. cbn [shr_m shr_r shr_s] in *.
  assert (HP : 0 < 2 ^ k) by (apply Z.pow_pos_nonneg; lia).
  set (P := 2 ^ k) in *.
  destruct rb, sb; cbn [loc_of_shr_record round_nearest_even].
  - assert (0 < tau) by (apply Hs; reflexivity). intros [Ht | Ht]; nia.
  - intros _. destruct (Z.even m) eqn:Hev; [exact Hev |].
    rewrite Z.even_add, Hev. reflexivity.
  - intros [Ht | Ht]; nia.
  - intros [Ht | Ht]; nia.
Qed.

Lemma binary_round_aux_rne (prec emax : Z) (s : bool) (x : positive) (ex : Z) :
  0 < prec ->
  ex <= fexp prec emax (Zpos (digits2_pos x) + ex) ->
  exists q,
    NearestEven.rne (Zpos x) (fexp prec emax (Zpos (digits2_pos x) + ex) - ex) q /\
    q <= 2 ^ prec /\
    binary_round_aux prec emax s (Zpos x) ex loc_Exact =
    finish prec emax s q (fexp prec emax (Zpos (digits2_pos x) + ex)).
Proof.
  intros prec_pos Hex.
  set (e1 := fexp prec emax (Zpos (digits2_pos x) + ex)) in *.
  assert (He1 : emin prec emax <= e1) by apply fexp_ge_emin.
  assert (Hpp : 0 < 2 ^ prec) by (apply Z.pow_pos_nonneg; lia).
  unfold binary_round_aux.
  assert (Hfst : shr_fexp prec emax (Zpos x) ex loc_Exact =
                 shr (Build_shr_record (Zpos x) false false) ex (e1 - ex))
    by reflexivity.
  rewrite Hfst. clear Hfst.
  destruct (shr_spec (Zpos x) ex (e1 - ex)) as [Hinv He']; try lia.
  destruct (shr (Build_shr_record (Zpos x) false false) ex (e1 - ex))
    as [mrs' e'] eqn:Hshr.
  cbn [fst snd] in Hinv, He'. replace e' with e1 by lia.
  assert (Hk0 : 0 <= e1 - ex) by lia.
  pose proof (round_nearest_even_rne (Zpos x) (e1 - ex) mrs' Hk0 Hinv) as Hrne.
  set (q := round_nearest_even (shr_m mrs') (loc_of_shr_record mrs')) in *.
  pose proof (proj1 Hrne) as Hq.
  assert (Hqle : q <= 2 ^ prec).
  { destruct Hq as [Hq0 [_ Hup]].
    pose proof (digits2_pos_bounds x) as [_ Hx].
    assert (Hk : Zpos (digits2_pos x) <= (e1 - ex) + prec)
      by (unfold e1, fexp; lia).
    assert (H2 : 2 ^ Zpos (digits2_pos x) <= 2 ^ (e1 - ex) * 2 ^ prec).
    { rewrite <- Z.pow_add_r by lia. apply Z.pow_le_mono_r; lia. }
    assert (HP : 0 < 2 ^ (e1 - ex)) by (apply Z.pow_pos_nonneg; lia).
    nia. }
  exists q. split; [exact Hrne |]. split; [exact Hqle |].
  unfold finish. destruct Hq as [Hq0 _].
  destruct (Z.eqb_spec q 0) as [Hz | Hnz].
  - rewrite Hz, (second_shift_none prec emax prec_pos 0 e1) by lia. reflexivity.
  - destruct (Z.ltb_spec q (2 ^ prec)) as [Hlt | Hge].
    + rewrite (second_shift_none prec emax prec_pos q e1) by lia. cbn [shr_m].
      destruct q as [| qp | qp]; try lia. reflexivity.
    + assert (Hqe : q = 2 ^ prec) by lia. rewrite Hqe.
      destruct (second_shift_carry prec emax prec_pos e1 He1) as [Hm He2].
      destruct (shr_fexp prec emax (2 ^ prec) e1 loc_Exact) as [mrs'' e''].
      cbn [fst snd] in Hm, He2. rewrite Hm, He2.
      assert (0 < 2 ^ (prec - 1)) by (apply Z.pow_pos_nonneg; lia).
      destruct (2 ^ (prec - 1)) as [| pp | pp]; try lia. reflexivity.
Qed.

(** The product [voltage * 1000] of an accepted positive [float] [m * 2^e]:
  the exact product is [x * 2^(e - 14)] with [x = m * 16384000]; it is
  rounded at exponent [g], to [q * 2^g]. *)
Lemma product_rounding (m : positive) (e : Z) :
  FP.f32_valid (S754_finite false m e) = true ->
  FAU201Device.out_of_range (S754_finite false m e) = false ->
  exists q g,
    g = Z.max (Zpos (digits2_pos (m * 16384000)) + (e - 14) - 24) (-149) /\
    24 <= Zpos (digits2_pos (m * 16384000)) <= 12 - (e - 14) /\
    -163 <= e - 14 <= g /\ g <= -12 /\
    NearestEven.rne (Zpos m * 16384000) (g - (e - 14)) q /\
    0 <= q <= 2 ^ 24 /\ q <= 4095 * 2 ^ (- g) /\
    FP.f32_mul (S754_finite false m e) FAU201Device.f32_1000 =
    finish 24 128 false q g.
Proof.
  intros Hvalid Hin.
  apply f32_valid_finite in Hvalid as (He & Hm & _).
  assert (Hrange : e < -21 \/ (e = -21 /\ Zpos m <= 8587837)).
  { pose proof (out_of_range_finite_pos m e) as Ho. rewrite Hin in Ho.
    assert (Hn : ~ (-21 < e \/ e = -21 /\ 8587837 < Zpos m)).
    { intros Hx. apply Ho in Hx. discriminate Hx. }
    lia. }
  clear Hin.
  unfold FP.f32_mul, FAU201Device.f32_1000, SFmul. cbn [xorb].
  replace (e + -14) with (e - 14) by lia.
  set (x := (m * 16384000)%positive). set (ex := e - 14).
  assert (Hx : Zpos x = Zpos m * 16384000) by reflexivity.
  assert (Hlt : Zpos x < 4095 * 2 ^ (- ex)).
  { unfold ex. destruct Hrange as [Hlo | [He21 Hm21]].
    - assert (2 ^ 36 <= 2 ^ (- (e - 14))) by (apply Z.pow_le_mono_r; lia).
      replace (2 ^ 24) with 16777216 in Hm by reflexivity.
      replace (2 ^ 36) with 68719476736 in * by reflexivity. lia.
    - subst e. replace (2 ^ (- (-21 - 14))) with 34359738368 by reflexivity. lia. }
  assert (Hd_lo : 24 <= Zpos (digits2_pos x)).
  { assert (23 < Zpos (digits2_pos x)); [| lia].
    apply digits2_pos_lower. change (2 ^ 23) with 8388608. lia. }
  assert (Hd_hi : Zpos (digits2_pos x) <= 12 - ex).
  { apply digits2_pos_upper. replace (12 - ex) with (12 + - ex) by lia.
    rewrite pow2_split by (unfold ex; lia). change (2 ^ 12) with 4096.
    assert (0 < 2 ^ (- ex)) by (apply Z.pow_pos_nonneg; unfold ex; lia). lia. }
  destruct (binary_round_aux_rne 24 128 false x ex ltac:(lia)) as (q & Hq & Hq24 & Hres).
  { unfold fexp. lia. }
  rewrite Hres. clear Hres.
  assert (Hg : fexp 24 128 (Zpos (digits2_pos x) + ex) =
               Z.max (Zpos (digits2_pos x) + ex - 24) (-149)) by reflexivity.
  rewrite Hg in *. clear Hg.
  set (g := Z.max (Zpos (digits2_pos x) + ex - 24) (-149)) in *.
  assert (He1 : -149 <= g <= -12 /\ ex <= g) by (unfold g; lia).
  assert (HqN : q <= 4095 * 2 ^ (- g)).
  { destruct Hq as [[_ [_ Hup]] _].
    assert (Hsplit : 2 ^ (- ex) = 2 ^ (- g) * 2 ^ (g - ex)).
    { rewrite <- pow2_split by lia. f_equal. lia. }
    assert (0 < 2 ^ (g - ex)) by (apply Z.pow_pos_nonneg; lia).
    assert (0 < 2 ^ (- g)) by (apply Z.pow_pos_nonneg; lia).
    rewrite Hsplit in Hlt. nia. }
  exists q, g. rewrite <- Hx.
  pose proof (proj1 (proj1 Hq)) as Hq0.
  repeat split; try lia; try exact Hq; try apply Hq.
Qed.

Lemma round_half_up_finish (q g : Z) :
  0 <= q <= 2 ^ 24 -> g <= -12 ->
  FP.round_half_up (FP.value (finish 24 128 false q g)) = rhu_dyadic q g.
Proof.
  intros Hq Hg. unfold finish. change (128 - 24) with 104.
  change (2 ^ 24) with 16777216 in *.
  destruct (Z.eqb_spec q 0) as [-> | Hnz].
  - unfold rhu_dyadic. cbn [FP.value]. change (FP.round_half_up 0) with 0.
    symmetry. apply Z.div_small.
    assert (0 < 2 ^ (- g)) by (apply Z.pow_pos_nonneg; lia).
    replace (1 - g) with (Z.succ (- g)) by lia. rewrite Z.pow_succ_r by lia. lia.
  - destruct (Z.ltb_spec q 16777216) as [Hlt | Hge].
    + destruct (Z.leb_spec g 104); [| lia].
      rewrite round_half_up_dyadic by lia. now rewrite Z2Pos.id by lia.
    + destruct (Z.leb_spec (g + 1) 104); [| lia].
      rewrite round_half_up_dyadic by lia.
      change (Zpos (Z.to_pos (2 ^ (24 - 1)))) with 8388608.
      assert (Hq24 : q = 8388608 * 2 ^ 1) by (change (2 ^ 1) with 2; lia).
      pose proof (rhu_dyadic_scale 8388608 (g + 1) 1 ltac:(lia) ltac:(lia)) as Hs.
      replace (g + 1 - 1) with g in Hs by lia.
      now rewrite Hq24, Hs.
Qed.

(** The code and the exact product, in integers: with [E = 2^-e],
  [|code * E - 1000 * m| <= (1/2 + 1/8192) * E]. *)
Lemma code_close_to_product (q g m e : Z) :
  0 < m -> e <= 0 -> -163 <= e - 14 <= g -> g <= -12 ->
  NearestEven.rne (m * 16384000) (g - (e - 14)) q ->
  8192 * Z.abs (rhu_dyadic q g * 2 ^ (- e) - 1000 * m) <= 4097 * 2 ^ (- e).
Proof.
  intros Hm He0 He Hg [[Hq0 Hq] _]. unfold rhu_dyadic.
  set (k := g - (e - 14)) in *.
  assert (HK : 0 < 2 ^ k) by (apply Z.pow_pos_nonneg; lia).
  assert (HP : 4096 <= 2 ^ (- g)).
  { change 4096 with (2 ^ 12). apply Z.pow_le_mono_r; lia. }
  assert (HD : 2 ^ (1 - g) = 2 * 2 ^ (- g)).
  { replace (1 - g) with (Z.succ (- g)) by lia. now rewrite Z.pow_succ_r by lia. }
  assert (HE : 16384 * 2 ^ (- e) = 2 ^ (- g) * 2 ^ k).
  { change 16384 with (2 ^ 14).
    rewrite <- (pow2_split 14 (- e)), <- (pow2_split (- g) k) by lia.
    f_equal. unfold k. lia. }
  rewrite HD.
  set (P := 2 ^ (- g)) in *. set (K := 2 ^ k) in *. set (E := 2 ^ (- e)) in *.
  pose proof (Z.div_mod (2 * q + P) (2 * P) ltac:(lia)) as Hdm.
  pose proof (Z.mod_pos_bound (2 * q + P) (2 * P) ltac:(lia)) as Hmod.
  set (c := (2 * q + P) / (2 * P)) in *.
  set (r := (2 * q + P) mod (2 * P)) in *.
  (* 2 P c - 2 q = P - r, with 0 <= r < 2 P;  |2 K q - 2 x| <= K *)
  assert (H1 : 2 * 16384 * (c * E - 1000 * m) =
               K * (2 * P * c - 2 * q) + (2 * K * q - 2 * (m * 16384000))).
  { replace (2 * 16384 * (c * E - 1000 * m))
      with (2 * c * (16384 * E) - 2 * (m * 16384000)) by ring.
    rewrite HE. ring. }
  assert (HA : - P < 2 * P * c - 2 * q <= P) by lia.
  assert (HKA : - (K * P) <= K * (2 * P * c - 2 * q) <= K * P).
  { split.
    - rewrite <- Z.mul_opp_r. apply Z.mul_le_mono_nonneg_l; lia.
    - apply Z.mul_le_mono_nonneg_l; lia. }
  assert (HKP : K * 4096 <= K * P) by (apply Z.mul_le_mono_nonneg_l; lia).
  rewrite (Z.mul_comm P K) in HE.
  lia.
Qed.

(* ===================================================================== *)
(** ** Rounding to nearest even is monotone *)
(* ===================================================================== *)

Lemma rne_scale (x k q t : Z) :
  0 <= k -> 0 <= t -> NearestEven.rne x k q ->
  NearestEven.rne (x * 2 ^ t) (k + t) q.
Proof.
  intros Hk Ht [[Hq0 Hq] Htie].
  assert (HT : 0 < 2 ^ t) by (apply Z.pow_pos_nonneg; lia).
  assert (HK : 0 < 2 ^ k) by (apply Z.pow_pos_nonneg; lia).
  unfold NearestEven.rne, rounds_to. rewrite pow2_split by lia.
  set (T := 2 ^ t) in *. set (K := 2 ^ k) in *.
  split; [split; [exact Hq0 | nia] |].
  intros Hx. apply Htie. destruct Hx as [Hx | Hx]; [left | right]; nia.
Qed.

Lemma rne_same_scale (X1 X2 k q1 q2 : Z) :
  0 <= k -> X1 <= X2 ->
  NearestEven.rne X1 k q1 -> NearestEven.rne X2 k q2 -> q1 <= q2.
Proof.
  intros Hk HX [[_ H1] Ht1] [[_ H2] Ht2].
  assert (HK : 0 < 2 ^ k) by (apply Z.pow_pos_nonneg; lia).
  set (K := 2 ^ k) in *.
  destruct (Z_le_gt_dec q1 q2) as [| Hgt]; [assumption | exfalso].
  assert (Hq : q1 = q2 + 1) by nia.
  assert (E1 : 2 * K * q1 = 2 * X1 + K) by nia.
  assert (E2 : 2 * K * q2 = 2 * X2 - K) by nia.
  specialize (Ht1 (or_introl E1)). specialize (Ht2 (or_intror E2)).
  rewrite Hq, Z.even_add, Ht2 in Ht1. discriminate Ht1.
Qed.

Lemma rne_monotone (X1 X2 D1 D2 q1 q2 : Z) :
  24 <= D1 -> 24 <= D2 ->
  2 ^ (D1 - 1) <= X1 < 2 ^ D1 -> 2 ^ (D2 - 1) <= X2 < 2 ^ D2 ->
  NearestEven.rne X1 (Z.max (D1 - 24) 14) q1 ->
  NearestEven.rne X2 (Z.max (D2 - 24) 14) q2 ->
  X1 <= X2 ->
  q1 * 2 ^ Z.max (D1 - 24) 14 <= q2 * 2 ^ Z.max (D2 - 24) 14.
Proof.
  intros HD1 HD2 HX1 HX2 Hr1 Hr2 HX.
  assert (HD : D1 <= D2).
  { assert (2 ^ (D1 - 1) < 2 ^ D2) by lia.
    apply Z.pow_lt_mono_r_iff in H; lia. }
  set (g1 := Z.max (D1 - 24) 14) in *. set (g2 := Z.max (D2 - 24) 14) in *.
  destruct (Z.eq_dec g1 g2) as [Heq | Hne].
  - rewrite <- Heq in *.
    assert (q1 <= q2) by (apply (rne_same_scale X1 X2 g1); assumption || (unfold g1; lia)).
    assert (0 < 2 ^ g1) by (apply Z.pow_pos_nonneg; unfold g1; lia).
    nia.
  - assert (Hlt : g1 < g2 /\ D1 < D2 /\ g2 = D2 - 24) by (unfold g1, g2 in *; lia).
    destruct Hlt as (Hg & HDlt & Hg2).
    (* a power of two lies between the two products *)
    assert (Hq1 : q1 * 2 ^ g1 <= 2 ^ D1).
    { destruct Hr1 as [[_ [_ Hup]] _].
      assert (Hs : 2 ^ D1 = 2 ^ (D1 - g1) * 2 ^ g1).
      { rewrite <- pow2_split by (unfold g1; lia). f_equal. lia. }
      assert (HG : 0 < 2 ^ g1) by (apply Z.pow_pos_nonneg; unfold g1; lia).
      rewrite Hs in *.
      set (T := 2 ^ (D1 - g1)) in *. set (G := 2 ^ g1) in *.
      destruct (Z_le_gt_dec q1 T) as [Hle | Hgt].
      - apply Z.mul_le_mono_nonneg_r; lia.
      - exfalso.
        assert (G * (T + 1) <= G * q1) by (apply Z.mul_le_mono_nonneg_l; lia).
        lia. }
    assert (Hq2 : 2 ^ (D2 - 1) <= q2 * 2 ^ g2).
    { destruct Hr2 as [[_ [Hlo _]] _].
      assert (Hs : 2 ^ (D2 - 1) = 2 ^ (D2 - 1 - g2) * 2 ^ g2).
      { rewrite <- pow2_split by lia. f_equal. lia. }
      assert (HG : 0 < 2 ^ g2) by (apply Z.pow_pos_nonneg; lia).
      rewrite Hs in *.
      set (T := 2 ^ (D2 - 1 - g2)) in *. set (G := 2 ^ g2) in *.
      destruct (Z_le_gt_dec T q2) as [Hle | Hgt].
      - apply Z.mul_le_mono_nonneg_r; lia.
      - exfalso.
        assert (G * q2 <= G * (T - 1)) by (apply Z.mul_le_mono_nonneg_l; lia).
        lia. }
    assert (2 ^ D1 <= 2 ^ (D2 - 1)) by (apply Z.pow_le_mono_r; lia).
    lia.
Qed.

Lemma rhu_dyadic_monotone (a b e : Z) :
  e <= 0 -> a <= b -> rhu_dyadic a e <= rhu_dyadic b e.
Proof.
  intros He Hab. unfold rhu_dyadic.
  apply Z.div_le_mono; [apply Z.pow_pos_nonneg; lia | lia].
Qed.

(* ===================================================================== *)
(** ** Accuracy and monotonicity of the voltage code *)
(* ===================================================================== *)

Lemma in_interval_positive (m : positive) (e : Z) :
  FP.f32_valid (S754_finite false m e) = true ->
  VoltageSpec.in_interval (S754_finite false m e) ->
  FAU201Device.out_of_range (S754_finite false m e) = false /\ -149 <= e <= -21.
Proof.
  intros Hvalid Hin.
  assert (Hacc : FAU201Device.out_of_range (S754_finite false m e) = false)
    by (now apply out_of_range_iff).
  split; [exact Hacc |].
  pose proof (out_of_range_finite_pos m e) as Ho. rewrite Hacc in Ho.
  assert (Hn : ~ (-21 < e \/ e = -21 /\ 8587837 < Zpos m)).
  { intros Hx. apply Ho in Hx. discriminate Hx. }
  apply f32_valid_finite in Hvalid. lia.
Qed.

Lemma positive_code (cast_undef : spec_float -> Z) (m : positive) (e : Z) :
  FP.f32_valid (S754_finite false m e) = true ->
  VoltageSpec.in_interval (S754_finite false m e) ->
  exists q g,
    g = Z.max (Zpos (digits2_pos (m * 16384000)) + (e - 14) - 24) (-149) /\
    24 <= Zpos (digits2_pos (m * 16384000)) /\
    -163 <= e - 14 <= g /\ g <= -12 /\
    NearestEven.rne (Zpos m * 16384000) (g - (e - 14)) q /\
    FAU201Device.voltageCode cast_undef (S754_finite false m e) = rhu_dyadic q g.
Proof.
  intros Hvalid Hin.
  destruct (in_interval_positive m e Hvalid Hin) as [Hacc He].
  destruct (product_rounding m e Hvalid Hacc)
    as (q & g & Hg & Hd & Hex & Hg12 & Hrne & Hq & _ & Hmul).
  destruct (voltageCode_in_range cast_undef _ Hvalid Hin) as [Hcode _].
  exists q, g. repeat split; try lia; try apply Hrne.
  rewrite Hcode, Hmul. now apply round_half_up_finish.
Qed.

Section CodeQuality.

Variable cast_undef : spec_float -> Z.

(** X5. For every [float] voltage [v] in [0, 4.095] the voltage code is
  within 1/2 + 1/8192 of the exact product [1000 * v]: half a millivolt
  from the final rounding, and at most 1/8192 from the rounding of the
  [float] product. *)
Theorem voltageCode_accuracy (v : FP.float) :
  FP.f32_valid v = true -> VoltageSpec.in_interval v ->
  (Qabs (inject_Z (FAU201Device.voltageCode cast_undef v) - 1000 * FP.value v)
   <= 4097 # 8192)%Q.
Proof.
  intros Hvalid Hin.
  destruct v as [s | s | | s m e]; try (destruct Hin as [Hf _]; discriminate Hf).
  - destruct (voltageCode_in_range cast_undef _ Hvalid Hin) as [Hcode _].
    rewrite Hcode. destruct s; vm_compute; discriminate.
  - destruct s.
    { destruct Hin as (_ & Hs & _). apply value_sign in Hs. discriminate Hs. }
    destruct (in_interval_positive m e Hvalid Hin) as [_ He].
    destruct (positive_code cast_undef m e Hvalid Hin)
      as (q & g & _ & _ & Hex & Hg12 & Hrne & Hcode).
    rewrite Hcode.
    assert (Hmpos : 0 < Zpos m) by lia.
    assert (He0 : e <= 0) by lia.
    pose proof (code_close_to_product q g (Zpos m) e Hmpos He0 Hex Hg12 Hrne)
      as Hclose.
    assert (HE : 0 < 2 ^ (- e)) by (apply Z.pow_pos_nonneg; lia).
    rewrite (value_nonpos_exp false m e) by lia. cbn [cond_Zopp].
    set (c := rhu_dyadic q g) in *.
    assert (Hq : (inject_Z c - 1000 * (Zpos m # Z.to_pos (2 ^ (- e))) ==
                  (c * 2 ^ (- e) - 1000 * Zpos m) # Z.to_pos (2 ^ (- e)))%Q).
    { unfold Qeq, Qminus, Qplus, Qopp, Qmult, inject_Z. cbn [Qnum Qden].
      rewrite !Pos2Z.inj_mul, !Z2Pos.id by exact HE. ring. }
    rewrite Hq. unfold Qabs, Qle. cbn [Qnum Qden].
    rewrite Z2Pos.id by exact HE. lia.
Qed.

(** X6. The voltage code never decreases when the voltage increases: for two
  [float] voltages in [0, 4.095], [v1 <= v2] implies
  [code(v1) <= code(v2)]. *)
Theorem voltageCode_monotone (v1 v2 : FP.float) :
  FP.f32_valid v1 = true -> FP.f32_valid v2 = true ->
  VoltageSpec.in_interval v1 -> VoltageSpec.in_interval v2 ->
  (FP.value v1 <= FP.value v2)%Q ->
  FAU201Device.voltageCode cast_undef v1 <= FAU201Device.voltageCode cast_undef v2.
Proof.
  intros Hv1 Hv2 Hin1 Hin2 Hle.
  destruct (voltageCode_in_range cast_undef v2 Hv2 Hin2) as [Hc2 Hb2].
  cbv zeta in Hc2, Hb2. rewrite <- Hc2 in Hb2.
  destruct v1 as [s1 | s1 | | s1 m1 e1];
    try (destruct Hin1 as [Hf _]; discriminate Hf).
  - (* v1 is a zero: its code is 0 *)
    destruct (voltageCode_in_range cast_undef _ Hv1 Hin1) as [Hc1 _].
    rewrite Hc1. replace (FP.round_half_up _) with 0 by (destruct s1; reflexivity).
    lia.
  - destruct s1.
    { destruct Hin1 as (_ & Hs & _). apply value_sign in Hs. discriminate Hs. }
    destruct (in_interval_positive m1 e1 Hv1 Hin1) as [_ He1].
    destruct v2 as [s2 | s2 | | s2 m2 e2];
      try (destruct Hin2 as [Hf _]; discriminate Hf).
    + (* v2 is a zero: v1 <= v2 is impossible *)
      exfalso. rewrite (value_nonpos_exp false m1 e1) in Hle by lia.
      unfold Qle in Hle. cbn in Hle. lia.
    + destruct s2.
      { destruct Hin2 as (_ & Hs & _). apply value_sign in Hs. discriminate Hs. }
      destruct (in_interval_positive m2 e2 Hv2 Hin2) as [_ He2].
      destruct (positive_code cast_undef m1 e1 Hv1 Hin1)
        as (q1 & g1 & Hg1 & Hd1 & Hex1 & Hg121 & Hrne1 & Hcode1).
      destruct (positive_code cast_undef m2 e2 Hv2 Hin2)
        as (q2 & g2 & Hg2 & Hd2 & Hex2 & Hg122 & Hrne2 & Hcode2).
      rewrite Hcode1, Hcode2.
      (* the order of the two voltages, in integers *)
      rewrite (value_nonpos_exp false m1 e1), (value_nonpos_exp false m2 e2) in Hle by lia.
      unfold Qle in Hle. cbn [Qnum Qden cond_Zopp] in Hle.
      assert (HE1 : 0 < 2 ^ (- e1)) by (apply Z.pow_pos_nonneg; lia).
      assert (HE2 : 0 < 2 ^ (- e2)) by (apply Z.pow_pos_nonneg; lia).
      rewrite !Z2Pos.id in Hle by assumption.
      (* both products at the common exponent -163 *)
      set (t1 := e1 + 149). set (t2 := e2 + 149).
      assert (HT1 : 0 < 2 ^ t1) by (apply Z.pow_pos_nonneg; unfold t1; lia).
      assert (HT2 : 0 < 2 ^ t2) by (apply Z.pow_pos_nonneg; unfold t2; lia).
      assert (H149a : 2 ^ t1 * 2 ^ (- e1) = 2 ^ 149).
      { rewrite <- pow2_split by (unfold t1; lia). f_equal. unfold t1. lia. }
      assert (H149b : 2 ^ t2 * 2 ^ (- e2) = 2 ^ 149).
      { rewrite <- pow2_split by (unfold t2; lia). f_equal. unfold t2. lia. }
      assert (HX : Zpos m1 * 16384000 * 2 ^ t1 <= Zpos m2 * 16384000 * 2 ^ t2).
      { assert (Hm : Zpos m1 * 2 ^ t1 <= Zpos m2 * 2 ^ t2).
        { apply (Z.mul_le_mono_pos_r _ _ (2 ^ 149)); [reflexivity |].
          rewrite <- H149b at 1. rewrite <- H149a at 1.
          replace (Zpos m1 * 2 ^ t1 * (2 ^ t2 * 2 ^ (- e2)))
            with (Zpos m1 * 2 ^ (- e2) * (2 ^ t1 * 2 ^ t2)) by ring.
          replace (Zpos m2 * 2 ^ t2 * (2 ^ t1 * 2 ^ (- e1)))
            with (Zpos m2 * 2 ^ (- e1) * (2 ^ t1 * 2 ^ t2)) by ring.
          apply Z.mul_le_mono_nonneg_r; [| exact Hle].
          apply Z.mul_nonneg_nonneg; lia. }
        lia. }
      pose proof (digits2_pos_bounds (m1 * 16384000)) as Hb1.
      pose proof (digits2_pos_bounds (m2 * 16384000)) as Hb2'.
      set (d1 := Zpos (digits2_pos (m1 * 16384000))) in *.
      set (d2 := Zpos (digits2_pos (m2 * 16384000))) in *.
      change (Zpos (m1 * 16384000)) with (Zpos m1 * 16384000) in Hb1.
      change (Zpos (m2 * 16384000)) with (Zpos m2 * 16384000) in Hb2'.
      assert (HB1 : 2 ^ (d1 + t1 - 1) <= Zpos m1 * 16384000 * 2 ^ t1 < 2 ^ (d1 + t1)).
      { replace (d1 + t1 - 1) with (d1 - 1 + t1) by lia.
        rewrite !pow2_split by (unfold t1; lia). nia. }
      assert (HB2 : 2 ^ (d2 + t2 - 1) <= Zpos m2 * 16384000 * 2 ^ t2 < 2 ^ (d2 + t2)).
      { replace (d2 + t2 - 1) with (d2 - 1 + t2) by lia.
        rewrite !pow2_split by (unfold t2; lia). nia. }
      assert (Hk1 : g1 - (e1 - 14) + t1 = Z.max (d1 + t1 - 24) 14) by (unfold t1; lia).
      assert (Hk2 : g2 - (e2 - 14) + t2 = Z.max (d2 + t2 - 24) 14) by (unfold t2; lia).
      assert (Ht1 : 0 <= t1) by (unfold t1; lia).
      assert (Ht2 : 0 <= t2) by (unfold t2; lia).
      assert (Hkk1 : 0 <= g1 - (e1 - 14)) by lia.
      assert (Hkk2 : 0 <= g2 - (e2 - 14)) by lia.
      pose proof (rne_scale (Zpos m1 * 16384000) (g1 - (e1 - 14)) q1 t1 Hkk1 Ht1 Hrne1) as Hs1.
      pose proof (rne_scale (Zpos m2 * 16384000) (g2 - (e2 - 14)) q2 t2 Hkk2 Ht2 Hrne2) as Hs2.
      rewrite Hk1 in Hs1. rewrite Hk2 in Hs2.
      assert (HD1 : 24 <= d1 + t1) by lia.
      assert (HD2 : 24 <= d2 + t2) by lia.
      pose proof (rne_monotone _ _ (d1 + t1) (d2 + t2) q1 q2
                    HD1 HD2 HB1 HB2 Hs1 Hs2 HX) as Hmono.
      rewrite <- Hk1, <- Hk2 in Hmono.
      replace (g1 - (e1 - 14) + t1) with (g1 + 163) in Hmono by (unfold t1; lia).
      replace (g2 - (e2 - 14) + t2) with (g2 + 163) in Hmono by (unfold t2; lia).
      (* the two codes at the common exponent *)
      assert (Hu1 : 0 <= g1 + 163) by lia.
      assert (Hu2 : 0 <= g2 + 163) by lia.
      assert (Hn1 : g1 <= 0) by lia.
      assert (Hn2 : g2 <= 0) by lia.
      pose proof (rhu_dyadic_scale q1 g1 (g1 + 163) Hu1 Hn1) as Hr1.
      pose proof (rhu_dyadic_scale q2 g2 (g2 + 163) Hu2 Hn2) as Hr2.
      replace (g1 - (g1 + 163)) with (-163) in Hr1 by lia.
      replace (g2 - (g2 + 163)) with (-163) in Hr2 by lia.
      rewrite <- Hr1, <- Hr2.
      apply rhu_dyadic_monotone; [lia | exact Hmono].
Qed.

End CodeQuality.

Lemma voltageCode_accuracy_witness :
  let v := S754_finite false 9340715 (-23) in
  FP.f32_valid v = true /\ VoltageSpec.in_interval v /\
  (Qabs (inject_Z (FAU201Device.voltageCode (fun _ => 0%Z) v) - 1000 * FP.value v)
   <= 4097 # 8192)%Q.
Proof.
  intros v.
  assert (Hvalid : FP.f32_valid v = true) by reflexivity.
  assert (Hin : VoltageSpec.in_interval v).
  { split; [reflexivity |]. split; vm_compute; discriminate. }
  split; [exact Hvalid |]. split; [exact Hin |].
  exact (voltageCode_accuracy (fun _ => 0) v Hvalid Hin).
Defined.

Lemma voltageCode_monotone_witness :
  let v1 := S754_finite false 8388608 (-23) in
  let v2 := S754_finite false 9340715 (-23) in
  FP.f32_valid v1 = true /\ FP.f32_valid v2 = true /\
  VoltageSpec.in_interval v1 /\ VoltageSpec.in_interval v2 /\
  (FP.value v1 <= FP.value v2)%Q /\
  FAU201Device.voltageCode (fun _ => 0) v1 <= FAU201Device.voltageCode (fun _ => 0) v2.
Proof.
  intros v1 v2.
  assert (Hv1 : FP.f32_valid v1 = true) by reflexivity.
  assert (Hv2 : FP.f32_valid v2 = true) by reflexivity.
  assert (Hin1 : VoltageSpec.in_interval v1).
  { split; [reflexivity |]. split; vm_compute; discriminate. }
  assert (Hin2 : VoltageSpec.in_interval v2).
  { split; [reflexivity |]. split; vm_compute; discriminate. }
  assert (Hle : (FP.value v1 <= FP.value v2)%Q) by (vm_compute; discriminate).
  repeat (split; [assumption |]).
  exact (voltageCode_monotone (fun _ => 0) v1 v2 Hv1 Hv2 Hin1 Hin2 Hle).
Defined.

(** X12. A major release outside 1..27 leaves no trace in the string: with a
  nonzero minor release, such a configuration is printed exactly like major
  release 1 with the same minor release. *)
Theorem hardwareRevision_unknown_major (maj mnr : Z) :
  maj < 1 \/ 27 < maj -> mnr <> 0 ->
  FAU201Device.hardwareRevision {| CP2130.majrel := maj; CP2130.minrel := mnr |} =
  FAU201Device.hardwareRevision {| CP2130.majrel := 1; CP2130.minrel := mnr |}.
Proof.
  intros Hmaj Hmnr.
  unfold FAU201Device.hardwareRevision. cbn [CP2130.majrel CP2130.minrel].
  rewrite (Z.gtb_ltb maj 1).
  assert (Hletter : (1 <? maj) && (maj <=? 27) = false).
  { destruct (Z.ltb_spec 1 maj); destruct (Z.leb_spec maj 27); cbn; try reflexivity; lia. }
  rewrite Hletter.
  destruct (Z.eqb_spec mnr 0); [contradiction |].
  destruct (maj =? 1); reflexivity.
Qed.

Lemma hardwareRevision_unknown_major_witness :
  (28 < 1 \/ 27 < 28) /\ 7 <> 0 /\
  FAU201Device.hardwareRevision {| CP2130.majrel := 28; CP2130.minrel := 7 |} =
  FAU201Device.hardwareRevision {| CP2130.majrel := 1; CP2130.minrel := 7 |}.
Proof.
  split; [lia |]. split; [lia |].
  apply (hardwareRevision_unknown_major 28 7); lia.
Defined.

(* ===================================================================== *)
(** ** The voltage code against the exact product *)
(* ===================================================================== *)

Lemma Zdiv_le_cross (a b c d : Z) :
  0 < b -> 0 < d -> a * d <= c * b -> a / b <= c / d.
Proof.
  intros Hb Hd Hle.
  rewrite <- (Z.div_mul_cancel_r a b d) by lia.
  rewrite <- (Z.div_mul_cancel_r c d b) by lia.
  rewrite (Z.mul_comm d b). apply Z.div_le_mono; lia.
Qed.

(** The code lies between the two roundings of the exact product moved by
  1/8192 either way. *)
Lemma code_sandwich (q g : Z) (m : positive) (e : Z) :
  e <= 0 -> -163 <= e - 14 <= g -> g <= -12 ->
  NearestEven.rne (Zpos m * 16384000) (g - (e - 14)) q ->
  FP.round_half_up (1000 * FP.value (S754_finite false m e) - (1 # 8192)) <=
    rhu_dyadic q g /\
  rhu_dyadic q g <=
    FP.round_half_up (1000 * FP.value (S754_finite false m e) + (1 # 8192)).
Proof.
  intros He0 He Hg [[Hq0 Hq] _].
  set (k := g - (e - 14)) in *.
  assert (HK : 0 < 2 ^ k) by (apply Z.pow_pos_nonneg; lia).
  assert (HP : 4096 <= 2 ^ (- g)).
  { change 4096 with (2 ^ 12). apply Z.pow_le_mono_r; lia. }
  assert (HD : 2 ^ (1 - g) = 2 * 2 ^ (- g)).
  { replace (1 - g) with (Z.succ (- g)) by lia. now rewrite Z.pow_succ_r by lia. }
  assert (HE : 16384 * 2 ^ (- e) = 2 ^ k * 2 ^ (- g)).
  { change 16384 with (2 ^ 14).
    rewrite <- (pow2_split 14 (- e)), <- (pow2_split k (- g)) by lia.
    f_equal. unfold k. lia. }
  assert (HEpos : 0 < 2 ^ (- e)) by (apply Z.pow_pos_nonneg; lia).
  unfold rhu_dyadic, FP.round_half_up. rewrite HD.
  set (P := 2 ^ (- g)) in *. set (K := 2 ^ k) in *.
  assert (HE' : 2 ^ (- e) = Zpos (Z.to_pos (2 ^ (- e)))) by (now rewrite Z2Pos.id).
  set (Ep := Z.to_pos (2 ^ (- e))) in *. rewrite HE' in HE, HEpos. clear HE'.
  assert (HK4 : K * 4096 <= K * P) by (apply Z.mul_le_mono_nonneg_l; lia).
  assert (Hlo : (1000 * FP.value (S754_finite false m e) - (1 # 8192) + (1 # 2) ==
                 (8192000 * Zpos m + 4095 * Zpos Ep) # (8192 * Ep))%Q).
  { rewrite (value_nonpos_exp false m e He0). fold Ep. cbn [cond_Zopp].
    cbv [Qeq Qplus Qminus Qopp Qmult Qnum Qden].
    rewrite !Pos2Z.inj_mul. ring. }
  assert (Hhi : (1000 * FP.value (S754_finite false m e) + (1 # 8192) + (1 # 2) ==
                 (8192000 * Zpos m + 4097 * Zpos Ep) # (8192 * Ep))%Q).
  { rewrite (value_nonpos_exp false m e He0). fold Ep. cbn [cond_Zopp].
    cbv [Qeq Qplus Qmult Qnum Qden].
    rewrite !Pos2Z.inj_mul. ring. }
  rewrite (Qfloor_comp _ _ Hlo), (Qfloor_comp _ _ Hhi).
  unfold Qfloor. rewrite Pos2Z.inj_mul.
  change (Zpos 8192) with 8192.
  set (E := Zpos Ep) in *. set (M := Zpos m) in *.
  split.
  - apply Zdiv_le_cross; [lia | lia |].
    (* 4 * (8192000 M + 4095 E) <= (2 q + P) * K, then multiply by P *)
    assert (H4 : 4 * (8192000 * M + 4095 * E) <= (2 * q + P) * K) by lia.
    apply (Z.mul_le_mono_nonneg_r _ _ P) in H4; [| lia].
    replace ((2 * q + P) * K * P) with ((2 * q + P) * (K * P)) in H4 by ring.
    rewrite <- HE in H4. lia.
  - apply Zdiv_le_cross; [lia | lia |].
    assert (H4 : (2 * q + P) * K <= 4 * (8192000 * M + 4097 * E)) by lia.
    apply (Z.mul_le_mono_nonneg_r _ _ P) in H4; [| lia].
    replace ((2 * q + P) * K * P) with ((2 * q + P) * (K * P)) in H4 by ring.
    rewrite <- HE in H4. lia.
Qed.

Lemma round_half_up_unique (x : Q) (lo hi n : Z) :
  FP.round_half_up (x - (1 # 8192)) <= lo -> hi <= FP.round_half_up (x + (1 # 8192)) ->
  (inject_Z n - (1 # 2) + (1 # 8192) <= x)%Q ->
  (x < inject_Z n + (1 # 2) - (1 # 8192))%Q ->
  n <= lo /\ hi <= n.
Proof.
  unfold FP.round_half_up. intros Hlo Hhi Hge Hlt. split.
  - rewrite <- (Qfloor_Z n). etransitivity; [| exact Hlo].
    apply Qfloor_resp_le. lra.
  - etransitivity; [exact Hhi |].
    apply Z.lt_succ_r. rewrite Zlt_Qlt.
    eapply Qle_lt_trans; [apply Qfloor_le |].
    unfold Z.succ. rewrite inject_Z_plus. change (inject_Z 1) with 1%Q. lra.
Qed.

Section SetVoltageCode.

Context {B : Type} `{CP2130.Bridge B}.
Variable cast_undef : spec_float -> Z.

Import CP2130.

(** C1. For every [float] voltage [v] in [0, 4.095], [setVoltage] issues
  exactly one SPI write, of three bytes, to the OUT endpoint 0x01: the
  opcode 0x30, then [code >> 4], then [code << 4] truncated to 8 bits.  The
  write is framed: chip select 0 asserted, the write, the wait of 100
  microseconds, chip select 0 released.  [code] is a 12-bit value, the
  single-precision product [v * 1000] rounded to the nearest integer.
  Against the exact product [1000 * v] it lies between the roundings of
  [1000 * v - 1/8192] and of [1000 * v + 1/8192]; so it is the integer [n]
  nearest to [1000 * v] whenever [1000 * v] is at least 1/8192 away from
  the half-integers either side of [n]. *)
Theorem setVoltage_in_range_frames_one_write (voltage : FP.float)
    (s : Session B) :
  FP.f32_valid voltage = true -> VoltageSpec.in_interval voltage ->
  let code := FAU201Device.voltageCode cast_undef voltage in
  let exact := (1000 * FP.value voltage)%Q in
  let set := [0x30; Z.shiftr code 4; Z.shiftl code 4 mod 256] in
  let s' := exec (FAU201Device.setVoltage cast_undef voltage) s in
  0 <= code <= 4095 /\
  code = FP.round_half_up (FP.value (FP.f32_mul voltage FAU201Device.f32_1000)) /\
  FP.round_half_up (exact - (1 # 8192)) <= code /\
  code <= FP.round_half_up (exact + (1 # 8192)) /\
  (forall n : Z,
     (inject_Z n - (1 # 2) + (1 # 8192) <= exact)%Q ->
     (exact < inject_Z n + (1 # 2) - (1 # 8192))%Q -> code = n) /\
  log s' = log s ++ [ EvSelectCS 0; EvSpiWrite set 0x01;
                      EvUsleep 100; EvDisableCS 0 ] /\
  (dev s', err s') =
    thread [ selectCS 0; spiWrite set 0x01; disableCS 0 ] (dev s, err s).
Proof.
  intros Hvalid Hin code exact set s'.
  destruct (voltageCode_in_range cast_undef voltage Hvalid Hin) as [Hcode Hbound].
  cbv zeta in Hcode, Hbound.
  destruct (setVoltage_in_range_run cast_undef voltage s Hvalid Hin)
    as (_ & Hlog & Hthread).
  rewrite <- Hcode in Hbound, Hlog, Hthread. fold code in Hbound, Hlog, Hthread.
  assert (Hsand : FP.round_half_up (exact - (1 # 8192)) <= code /\
                  code <= FP.round_half_up (exact + (1 # 8192))).
  { subst code exact.
    destruct voltage as [sg | sg | | sg m e];
      try (destruct Hin as [Hf _]; discriminate Hf).
    - rewrite Hcode. destruct sg; vm_compute; split; discriminate.
    - destruct sg.
      { destruct Hin as (_ & Hs & _). apply value_sign in Hs. discriminate Hs. }
      destruct (in_interval_positive m e Hvalid Hin) as [_ He].
      destruct (positive_code cast_undef m e Hvalid Hin)
        as (q & g & _ & _ & Hex & Hg12 & Hrne & Hq).
      rewrite Hq. apply code_sandwich; [lia | exact Hex | exact Hg12 | exact Hrne]. }
  destruct Hsand as [Hlo Hhi].
  split; [exact Hbound |]. split; [exact Hcode |].
  split; [exact Hlo |]. split; [exact Hhi |].
  split; [| split; [exact Hlog | exact Hthread]].
  intros n Hge Hlt.
  destruct (round_half_up_unique exact code code n Hlo Hhi Hge Hlt). lia.
Qed.

End SetVoltageCode.

(** One volt on an opened device: [1000 * v] is exactly 1000, so the code is
  1000 = 0x3E8 and the bytes are 0x30 0x3E 0x80. *)
Lemma setVoltage_in_range_frames_one_write_witness :
  let v := S754_finite false 8388608 (-23) in
  let s := exec (FAU201Device.open EmptyString)
                (SimBridge.start [SimBridge.unit1]) in
  FP.f32_valid v = true /\ VoltageSpec.in_interval v /\
  FAU201Device.voltageCode (fun _ => 0) v = 1000 /\
  log (exec (FAU201Device.setVoltage (fun _ => 0) v) s) =
  log s ++ [ CP2130.EvSelectCS 0; CP2130.EvSpiWrite [0x30; 0x3E; 0x80] 0x01;
             CP2130.EvUsleep 100; CP2130.EvDisableCS 0 ].
Proof.
  intros v s.
  assert (Hvalid : FP.f32_valid v = true) by reflexivity.
  assert (Hin : VoltageSpec.in_interval v).
  { split; [reflexivity |]. split; vm_compute; discriminate. }
  split; [exact Hvalid |]. split; [exact Hin |].
  destruct (setVoltage_in_range_frames_one_write (fun _ => 0) v s Hvalid Hin)
    as (_ & _ & _ & _ & Hexact & Hlog & _).
  assert (Hc : FAU201Device.voltageCode (fun _ => 0) v = 1000).
  { apply Hexact; vm_compute; [discriminate | reflexivity]. }
  split; [exact Hc |].
  rewrite Hc in Hlog. exact Hlog.
Defined.

(** C1 with [code] read as the exact product [1000 * v] rounded to the
  nearest integer does not hold.  The [float] 9340715 * 2^-23 (the one
  nearest to 1.1135) lies in the interval; [1000 * v] is
  1113.49999666..., which rounds to 1113 = 0x459 (bytes 0x45, 0x90), but
  the single-precision product is exactly 1113.5 and [setVoltage] writes
  the code 1114 = 0x45A (bytes 0x45, 0xA0). *)
Lemma setVoltage_code_not_exact_rounding :
  let v := S754_finite false 9340715 (-23) in
  let s := exec (FAU201Device.open EmptyString)
                (SimBridge.start [SimBridge.unit1]) in
  let code := FP.round_half_up (1000 * FP.value v) in
  FP.f32_valid v = true /\ VoltageSpec.in_interval v /\
  code = 1113 /\
  log (exec (FAU201Device.setVoltage (fun _ => 0) v) s) =
    log s ++ [ CP2130.EvSelectCS 0; CP2130.EvSpiWrite [0x30; 0x45; 0xA0] 0x01;
               CP2130.EvUsleep 100; CP2130.EvDisableCS 0 ] /\
  log (exec (FAU201Device.setVoltage (fun _ => 0) v) s) <>
    log s ++ [ CP2130.EvSelectCS 0;
               CP2130.EvSpiWrite
                 [0x30; Z.shiftr code 4; Z.shiftl code 4 mod 256] 0x01;
               CP2130.EvUsleep 100; CP2130.EvDisableCS 0 ].
Proof.
  intros v s code.
  split; [reflexivity |].
  split; [split; [reflexivity |]; split; vm_compute; discriminate |].
  split; [vm_compute; reflexivity |].
  split; [vm_compute; reflexivity |].
  vm_compute. discriminate.
Qed.
